(** * cnvlib.samutil: BAM utilities

    A shallow embedding of [cnvlib/samutil.py] and the properties of its four
    functions: [bam_total_reads], [ensure_bam_index], [ensure_bam_sorted] and
    [is_newer_than].

    The module is a thin layer over the file system and over pysam.  The file
    system, the index statistics samtools reports and the records of each BAM
    file are gathered in a [World]; every function is a computation over that
    world which either returns a value or raises a Python exception.  The one
    command of pysam which writes to disk, [pysam.index], is a parameter of the
    development. *)

From Stdlib Require Import ZArith Ascii String List Bool Lia.
From stdpp Require Import base option list strings gmap.

Local Open Scope Z_scope.
Local Open Scope string_scope.

(** ** Python builtins used by the module *)

Module Py.

(** [str.isspace] on a single byte of a Python 2 [str] in the C locale:
    space, tab, line feed, vertical tab, form feed, carriage return. *)
Definition isspace (c : ascii) : bool :=
  match c with
  | " "%char | "009"%char | "010"%char | "011"%char | "012"%char | "013"%char => true
  | _ => false
  end.

(** [s.split()]: the maximal runs of non-whitespace bytes, in order.  A byte
    which is not whitespace either starts a field of its own (when the next
    byte is whitespace or the string ends) or extends the first field of the
    rest of the string. *)
Fixpoint split (s : string) : list string :=
  match s with
  | EmptyString => []
  | String c s' =>
      if isspace c then split s'
      else match split s' with
           | [] => [String c EmptyString]
           | w :: ws =>
               match s' with
               | EmptyString => [String c EmptyString]
               | String c' _ =>
                   if isspace c' then String c EmptyString :: w :: ws
                   else String c w :: ws
               end
           end
  end.

(** [s.splitlines()] of a Python 2 [str]: lines end at a line feed, a carriage
    return, or a carriage return followed by a line feed; the line ends are not
    kept and a final line end opens no empty line. *)
Fixpoint splitlines (s : string) : list string :=
  match s with
  | EmptyString => []
  | String c s' =>
      if Ascii.eqb c "010"%char then EmptyString :: splitlines s'
      else if Ascii.eqb c "013"%char then
        match s' with
        | String c' s'' =>
            if Ascii.eqb c' "010"%char then EmptyString :: splitlines s''
            else EmptyString :: splitlines s'
        | EmptyString => [EmptyString]
        end
      else match splitlines s' with
           | [] => [String c EmptyString]
           | l :: ls => String c l :: ls
           end
  end.

(** The value of a decimal digit. *)
Definition digit (c : ascii) : option Z :=
  let n := N_of_ascii c in
  if ((48 <=? n) && (n <=? 57))%N then Some (Z.of_N n - 48) else None.

(** The digits of a literal, most significant first, on top of [acc]. *)
Fixpoint digits (acc : Z) (s : string) : option Z :=
  match s with
  | EmptyString => Some acc
  | String c s' =>
      match digit c with
      | Some d => digits (10 * acc + d) s'
      | None => None
      end
  end.

(** A non-empty run of decimal digits. *)
Definition unsigned_literal (s : string) : option Z :=
  match s with
  | EmptyString => None
  | _ => digits 0 s
  end.

(** [int(s)] in base 10 on a string without whitespace: an optional sign and
    at least one digit; [None] stands for the [ValueError] of a bad literal.
    Python integers are unbounded. *)
Definition int (s : string) : option Z :=
  match s with
  | EmptyString => None
  | String c s' =>
      if Ascii.eqb c "+"%char then unsigned_literal s'
      else if Ascii.eqb c "-"%char then Z.opp <$> unsigned_literal s'
      else unsigned_literal s
  end.

(** [s[:-1]]: all but the last character; the empty string stays empty. *)
Definition drop_last (s : string) : string :=
  substring 0 (String.length s - 1) s.

(** [sys.maxsize], the largest [Py_ssize_t]: 2^63 - 1 on the 64-bit builds
    of CPython. *)
Definition maxsize : Z := 9223372036854775807.

(** [a <= b] on byte strings: lexicographic on the byte values. *)
Definition str_le (a b : string) : bool := String.leb a b.

End Py.

(** ** Exceptions, the world and the computations over it *)

(** Why a [ValueError] was raised. *)
Inductive value_error : Type :=
  | UnpackMismatch (got : nat)      (* a, b, c, d = xs with len(xs) <> 4 *)
  | InvalidLiteral (s : string)     (* int(s) on a bad literal *)
  | BadStop (n : Z).                (* islice(it, n), n < 0 or n > sys.maxsize *)

(** The exceptions that leave the module. *)
Inductive exn : Type :=
  | ValueError (why : value_error)
  | OSError (path : string)         (* os.stat on a missing path *)
  | AssertionError (msg : string)
  | PysamError (path : string).     (* raised inside pysam *)

(** The outcome of a call: a value or an exception. *)
Inductive result (A : Type) : Type :=
  | Ok (a : A)
  | Raise (e : exn).
Arguments Ok {A} a.
Arguments Raise {A} e.

(** What [os.stat] tells about a path.  [st_mtime] is only ever compared, so
    any linearly ordered type of time stamps does; it is [Z] here. *)
Record stat_result : Type := mkStat { st_isreg : bool; st_mtime : Z }.

(** One record of a BAM file, with the attributes the module reads. *)
Record AlignedRead : Type := mkRead { tid : Z; pos : Z; qname : string }.

(** [pysam.idxstats] gives its lines either as one string or as a list. *)
Inductive idxstats_output : Type :=
  | StatsText (text : string)
  | StatsLines (lines : list string).

Record World : Type := mkWorld {
  files : gmap string stat_result;        (* every path that exists *)
  idxstats : gmap string idxstats_output; (* samtools idxstats, per BAM *)
  samfile : gmap string (list AlignedRead); (* the records, per BAM *)
  logged : list string                    (* logging.info messages, oldest first *)
}.

(** A computation reads and writes the world and ends in a [result]. *)
Definition M (A : Type) : Type := World -> result A * World.

Definition ret {A} (a : A) : M A := fun w => (Ok a, w).

Definition raise {A} (e : exn) : M A := fun w => (Raise e, w).

Definition bind {A B} (m : M A) (k : A -> M B) : M B :=
  fun w =>
    match m w with
    | (Ok a, w') => k a w'
    | (Raise e, w') => (Raise e, w')
    end.

(** A result computed without touching the world. *)
Definition lift {A} (r : result A) : M A := fun w => (r, w).

Declare Scope py_scope.
Delimit Scope py_scope with py.
Notation "x <- m ;; k" := (bind m (fun x => k))
  (at level 100, m at next level, right associativity) : py_scope.
Notation "m ;;; k" := (bind m (fun _ => k))
  (at level 100, right associativity) : py_scope.
Local Open Scope py_scope.

(** *** The file system *)

(** [os.path.isfile]: the path exists and is a regular file. *)
Definition isfile (path : string) : M bool :=
  fun w =>
    (Ok (match files w !! path with
         | Some st => st_isreg st
         | None => false
         end), w).

(** [os.stat]: [OSError] on a path that does not exist. *)
Definition stat (path : string) : M stat_result :=
  fun w =>
    match files w !! path with
    | Some st => (Ok st, w)
    | None => (Raise (OSError path), w)
    end.

(** [logging.info(fmt, arg)] with the one format the module uses. *)
Definition logging_info (msg : string) : M unit :=
  fun w =>
    (Ok tt, {| files := files w; idxstats := idxstats w;
               samfile := samfile w; logged := logged w ++ [msg] |}).

(** *** pysam's queries *)

Definition pysam_idxstats (bam_fname : string) : M idxstats_output :=
  fun w =>
    match idxstats w !! bam_fname with
    | Some out => (Ok out, w)
    | None => (Raise (PysamError bam_fname), w)
    end.

(** [pysam.Samfile(bam_fname, 'rb')]: the records the iterator will yield. *)
Definition pysam_Samfile (bam_fname : string) : M (list AlignedRead) :=
  fun w =>
    match samfile w !! bam_fname with
    | Some reads => (Ok reads, w)
    | None => (Raise (PysamError bam_fname), w)
    end.

(** ** The module *)

(** *** [is_newer_than] (lines 80-83) *)

Definition is_newer_than (target_fname orig_fname : string) : M bool :=
  t <- isfile target_fname ;;
  if negb t then ret false
  else
    st <- stat target_fname ;;
    so <- stat orig_fname ;;
    ret (st_mtime st >=? st_mtime so)%Z.

(** *** [bam_total_reads] (lines 11-23) *)

(** Lines 17-18: a string is cut into lines, a list is taken as it is. *)
Definition stats_lines (out : idxstats_output) : list string :=
  match out with
  | StatsText text => Py.splitlines text
  | StatsLines lines => lines
  end.

(** Lines 20-22, with [tot_mapped_reads] as the accumulator. *)
Fixpoint count_mapped (tot_mapped_reads : Z) (lines : list string) : result Z :=
  match lines with
  | [] => Ok tot_mapped_reads
  | line :: rest =>
      match Py.split line with
      | [_seqname; _seqlen; nmapped; _nunmapped] =>
          match Py.int nmapped with
          | Some n => count_mapped (tot_mapped_reads + n) rest
          | None => Raise (ValueError (InvalidLiteral nmapped))
          end
      | fields => Raise (ValueError (UnpackMismatch (length fields)))
      end
  end.

Definition bam_total_reads (bam_fname : string) : M Z :=
  lines <- pysam_idxstats bam_fname ;;
  lift (count_mapped 0 (stats_lines lines)).

(** *** [ensure_bam_sorted] (lines 49-77) *)

(** Lines 58-68: the test chosen by [by_name]; [prev] is [None] at the first
    record. *)
Definition out_of_order (by_name : bool) (read : AlignedRead)
    (prev : option AlignedRead) : bool :=
  if by_name then
    negb (match prev with
          | None => true
          | Some p => Py.str_le (qname p) (qname read)
          end)
  else
    negb (match prev with
          | None => true
          | Some p => negb (tid read =? tid p)%Z || (pos p <=? pos read)%Z
          end).

(** Lines 73-76: the loop over [islice(bam, span)].  [bam] is what the
    iterator has still to yield and [span] what [islice] may still take.  The
    loop gives its answer and what is left in the iterator. *)
Fixpoint scan_reads (by_name : bool) (span : nat) (last_read : option AlignedRead)
    (bam : list AlignedRead) : bool * list AlignedRead :=
  match span with
  | O => (true, bam)
  | S span' =>
      match bam with
      | [] => (true, [])
      | read :: bam' =>
          if out_of_order by_name read last_read then (false, bam')
          else scan_reads by_name span' (Some read) bam'
      end
  end.

Definition default_span : Z := 50.

(** [islice] refuses a stop that is negative or above [sys.maxsize] with a
    [ValueError], before any record is read. *)
Definition ensure_bam_sorted (bam_fname : string) (by_name : bool) (span : Z)
    : M bool :=
  bam <- pysam_Samfile bam_fname ;;
  if (span <? 0)%Z || (Py.maxsize <? span)%Z
  then raise (ValueError (BadStop span))
  else ret (fst (scan_reads by_name (Z.to_nat span) None bam)).

(** *** [ensure_bam_index] (lines 26-46) *)

Section EnsureIndex.

(** [pysam.index]: whatever samtools does to the world, or an exception. *)
Variable pysam_index : string -> M unit.

(** Lines 34-39: the index samtools would pick. *)
Definition bai_candidate (bam_fname : string) : M string :=
  primary <- isfile (bam_fname +:+ ".bai") ;;
  if primary then ret (bam_fname +:+ ".bai")
  else ret (Py.drop_last bam_fname +:+ "i").

(** Lines 41-43. *)
Definition reindex (bam_fname : string) : M string :=
  logging_info ("Indexing BAM file " +:+ bam_fname) ;;;
  pysam_index bam_fname ;;;
  ret (bam_fname +:+ ".bai").

Definition ensure_bam_index (bam_fname : string) : M string :=
  bai_fname <- bai_candidate bam_fname ;;
  fresh <- is_newer_than bai_fname bam_fname ;;
  bai_fname <- (if negb fresh then reindex bam_fname else ret bai_fname) ;;
  present <- isfile bai_fname ;;
  if present then ret bai_fname
  else raise (AssertionError ("Failed to generate index " +:+ bai_fname)).

End EnsureIndex.

(** ** Vocabulary of the specification *)

(** The path exists as a regular file. *)
Definition is_file (w : World) (path : string) : Prop :=
  exists st, files w !! path = Some st /\ st_isreg st = true.

(** The modification time of a path that exists. *)
Definition mtime (w : World) (path : string) : option Z :=
  st_mtime <$> files w !! path.

(** The world with one more regular file, or one file touched. *)
Definition write_file (path : string) (t : Z) (w : World) : World :=
  {| files := <[path := mkStat true t]> (files w); idxstats := idxstats w;
     samfile := samfile w; logged := logged w |}.

(** A world with nothing on disk. *)
Definition empty_world : World :=
  {| files := ∅; idxstats := ∅; samfile := ∅; logged := [] |}.

(** A statistics line is well formed when it splits into exactly four
    whitespace-separated fields. *)
Definition well_formed_line (line : string) : Prop :=
  length (Py.split line) = 4%nat.

(** The third field of a line, parsed as an integer. *)
Definition mapped_count (line : string) : result Z :=
  match Py.split line !! 2%nat with
  | Some field =>
      match Py.int field with
      | Some n => Ok n
      | None => Raise (ValueError (InvalidLiteral field))
      end
  | None => Raise (ValueError (UnpackMismatch (length (Py.split line))))
  end.

(** The sum of the mapped counts of all lines, as the specification words it:
    the first line whose count cannot be read decides the failure. *)
Fixpoint sum_mapped (lines : list string) : result Z :=
  match lines with
  | [] => Ok 0
  | line :: rest =>
      match mapped_count line with
      | Ok n =>
          match sum_mapped rest with
          | Ok s => Ok (n + s)
          | Raise e => Raise e
          end
      | Raise e => Raise e
      end
  end.

(** A line as samtools idxstats writes it: four fields, the third a run of
    decimal digits (the count is printed as an unsigned integer). *)
Definition unsigned_count (line : string) : Prop :=
  exists a b c d, Py.split line = [a; b; c; d] /\ is_Some (Py.unsigned_literal c).

(** The third field of the line, if there is one, does not open with a minus
    sign. *)
Definition no_minus_count (line : string) : Prop :=
  forall c rest, Py.split line !! 2%nat = Some (String c rest) -> c <> "-"%char.

(** A BAM whose index statistics are [out]. *)
Definition stats_world (bam_fname : string) (out : idxstats_output) : World :=
  {| files := ∅; idxstats := {[ bam_fname := out ]}; samfile := ∅; logged := [] |}.

(** Three references as samtools reports them, in one string. *)
Definition sample_stats : idxstats_output :=
  StatsText "chr1	1000	42	0
chr2	500	8	1
*	0	0	3
".

(** A count written with a minus sign. *)
Definition signed_stats : idxstats_output := StatsLines ["chr1 1000 -5 0"].

(** A line with three fields after a good one. *)
Definition short_stats : idxstats_output :=
  StatsLines ["chr1 1000 42 0"; "chr2 500 8"; "chr3 7 1 0"].

(** Lexicographic (alphabetical) order on strings, by the byte values. *)
Inductive lex_le : string -> string -> Prop :=
  | lex_le_empty s : lex_le EmptyString s
  | lex_le_less c1 c2 s1 s2 :
      (N_of_ascii c1 < N_of_ascii c2)%N -> lex_le (String c1 s1) (String c2 s2)
  | lex_le_same c s1 s2 : lex_le s1 s2 -> lex_le (String c s1) (String c s2).

(** The ordering the specification asks of a record and its predecessor. *)
Definition in_order (by_name : bool) (prev read : AlignedRead) : Prop :=
  if by_name then lex_le (qname prev) (qname read)
  else tid read <> tid prev \/ pos prev <= pos read.

(** Every record of the list is in order with the one just before it. *)
Definition consecutive_in_order (by_name : bool) (reads : list AlignedRead) : Prop :=
  forall (i : nat) prev read,
    reads !! i = Some prev -> reads !! S i = Some read -> in_order by_name prev read.

(** The loop's own invariant: each record passes the test against the one
    read before it, [last_read] standing before the first. *)
Fixpoint passes (by_name : bool) (last_read : option AlignedRead)
    (reads : list AlignedRead) : Prop :=
  match reads with
  | [] => True
  | read :: rest =>
      out_of_order by_name read last_read = false /\
      passes by_name (Some read) rest
  end.

(** The record the loop holds in [last_read] once it has read [reads]. *)
Definition last_read_after (last_read : option AlignedRead)
    (reads : list AlignedRead) : option AlignedRead :=
  match last reads with
  | Some read => Some read
  | None => last_read
  end.

(** A world with one BAM file and its records. *)
Definition reads_world (bam_fname : string) (reads : list AlignedRead) : World :=
  {| files := ∅; idxstats := ∅; samfile := {[ bam_fname := reads ]}; logged := [] |}.

(** The string with its last character replaced by [c]; the empty string has
    none to replace. *)
Fixpoint replace_last (s : string) (c : ascii) : string :=
  match s with
  | EmptyString => EmptyString
  | String a EmptyString => String c EmptyString
  | String a s' => String a (replace_last s' c)
  end.

(** The world once the indexing of [bam_fname] has been logged. *)
Definition announced (bam_fname : string) (w : World) : World :=
  snd (logging_info ("Indexing BAM file " +:+ bam_fname) w).

(** Lines 41-46 on their own: build the index, then insist that
    [<bam_fname>.bai] is there. *)
Definition regenerate (pysam_index : string -> M unit) (bam_fname : string)
    : M string :=
  bai_fname <- reindex pysam_index bam_fname ;;
  present <- isfile bai_fname ;;
  if present then ret bai_fname
  else raise (AssertionError ("Failed to generate index " +:+ bai_fname)).

(** An indexer that writes [<bam_fname>.bai] at time [t]. *)
Definition index_at (t : Z) : string -> M unit :=
  fun bam_fname w => (Ok tt, write_file (bam_fname +:+ ".bai") t w).

(** An indexer that returns without having written anything. *)
Definition index_nothing : string -> M unit :=
  fun _ w => (Ok tt, w).

(** A world with the given files, each a regular file with its time stamp. *)
Definition disk (entries : list (string * Z)) : World :=
  {| files := list_to_map (prod_map id (mkStat true) <$> entries);
     idxstats := ∅; samfile := ∅; logged := [] |}.

(** A BAM file and nothing else. *)
Definition bare_disk : World := disk [("s.bam", 10)].

(** A BAM file with an index under the second name, written at the same
    time. *)
Definition fresh_disk : World := disk [("s.bam", 10); ("s.bai", 10)].

(** A BAM file newer than its index under the second name. *)
Definition stale_fallback_disk : World := disk [("s.bam", 10); ("s.bai", 5)].

(** A BAM file newer than [s.bam.bai] and older than [s.bai]. *)
Definition stale_disk : World :=
  disk [("s.bam", 10); ("s.bam.bai", 5); ("s.bai", 20)].

(** The lines put back into one string, each ended by a line feed. *)
Definition unlines (lines : list string) : string :=
  foldr (fun line text => line +:+ String "010"%char text) EmptyString lines.

(** The string holds neither a line feed nor a carriage return. *)
Fixpoint free_of_line_ends (s : string) : bool :=
  match s with
  | EmptyString => true
  | String c s' =>
      negb (Ascii.eqb c "010"%char) && negb (Ascii.eqb c "013"%char)
      && free_of_line_ends s'
  end.

(** The string is made of whitespace only. *)
Fixpoint blank (s : string) : bool :=
  match s with
  | EmptyString => true
  | String c s' => Py.isspace c && blank s'
  end.

(** [padded] is [line] with whitespace before and after it. *)
Definition padding_of (line padded : string) : Prop :=
  exists before after,
    blank before = true /\ blank after = true /\
    padded = before +:+ line +:+ after.

(** Two BAM files with their index statistics. *)
Definition stats_world2 (f : string) (out : idxstats_output)
    (g : string) (out' : idxstats_output) : World :=
  {| files := ∅; idxstats := <[ f := out ]> {[ g := out' ]};
     samfile := ∅; logged := [] |}.

(** Several BAM files with their index statistics. *)
Definition stats_worlds (entries : list (string * idxstats_output)) : World :=
  {| files := ∅; idxstats := list_to_map entries; samfile := ∅; logged := [] |}.

(** [read] with another name. *)
Definition rename (read : AlignedRead) (name : string) : AlignedRead :=
  {| tid := tid read; pos := pos read; qname := name |}.

(** Where a record lies: its reference and its position. *)
Definition locus (read : AlignedRead) : Z * Z := (tid read, pos read).

(** An indexer that writes [<bam_fname>.bai] with the time stamp of the BAM
    file, when there is one. *)
Definition index_like_bam : string -> M unit :=
  fun bam_fname w =>
    match files w !! bam_fname with
    | Some st => (Ok tt, write_file (bam_fname +:+ ".bai") (st_mtime st) w)
    | None => (Raise (PysamError bam_fname), w)
    end.

(** An indexer that fails. *)
Definition index_fails : string -> M unit :=
  fun bam_fname w => (Raise (PysamError bam_fname), w).

(** On an existing BAM file the indexer returns and leaves a [<bam_fname>.bai]
    no older than the BAM file. *)
Definition builds_fresh_index (pysam_index : string -> M unit)
    (bam_fname : string) : Prop :=
  forall (w : World) (mb : Z),
    mtime w bam_fname = Some mb ->
    exists (w' : World) (mi mb' : Z),
      pysam_index bam_fname w = (Ok tt, w') /\
      is_file w' (bam_fname +:+ ".bai") /\
      mtime w' (bam_fname +:+ ".bai") = Some mi /\
      mtime w' bam_fname = Some mb' /\ mb' <= mi.

(** An index file and no BAM file. *)
Definition orphan_disk : World := disk [("s.bam.bai", 5)].

(** A file whose name ends in [i], on its own. *)
Definition odd_name_disk : World := disk [("reads.i", 10)].

(** Several BAM files with their records. *)
Definition reads_worlds (entries : list (string * list AlignedRead)) : World :=
  {| files := ∅; idxstats := ∅; samfile := list_to_map entries; logged := [] |}.

(** ** Unfolding the computations *)

Lemma isfile_true w path :
  is_file w path -> isfile path w = (Ok true, w).
Proof.
  intros (st & Hst & Hreg). unfold isfile. now rewrite Hst, Hreg.
Qed.

Lemma isfile_false w path :
  ~ is_file w path -> isfile path w = (Ok false, w).
Proof.
  intros Hno. unfold isfile.
  destruct (files w !! path) as [st|] eqn:Hst; [|reflexivity].
  destruct (st_isreg st) eqn:Hreg; [|reflexivity].
  exfalso. apply Hno. now exists st.
Qed.

Lemma isfile_world w path : snd (isfile path w) = w.
Proof. reflexivity. Qed.

Lemma isfile_cases w path :
  (is_file w path /\ isfile path w = (Ok true, w)) \/
  (~ is_file w path /\ isfile path w = (Ok false, w)).
Proof.
  unfold isfile, is_file.
  destruct (files w !! path) as [st|] eqn:Hst.
  - destruct (st_isreg st) eqn:Hreg.
    + left. split; [now exists st | reflexivity].
    + right. split; [|reflexivity].
      intros (st' & Hst' & Hreg'). congruence.
  - right. split; [|reflexivity]. intros (st' & Hst' & _). congruence.
Qed.

Lemma is_newer_than_absent w target orig :
  ~ is_file w target -> is_newer_than target orig w = (Ok false, w).
Proof.
  intros Hno. unfold is_newer_than, bind.
  now rewrite (isfile_false _ _ Hno).
Qed.

Lemma is_newer_than_present w target orig mt mo :
  is_file w target -> mtime w target = Some mt -> mtime w orig = Some mo ->
  is_newer_than target orig w = (Ok (mt >=? mo)%Z, w).
Proof.
  intros Hf Ht Ho. unfold is_newer_than, bind.
  rewrite (isfile_true _ _ Hf). cbn.
  unfold mtime in Ht, Ho. unfold stat.
  destruct (files w !! target) as [st|]; [|discriminate].
  destruct (files w !! orig) as [so|]; [|discriminate].
  cbn in Ht, Ho. unfold ret. congruence.
Qed.

(** [os.stat] on a reference that does not exist raises. *)
Lemma is_newer_than_no_reference w target orig :
  is_file w target -> files w !! orig = None ->
  is_newer_than target orig w = (Raise (OSError orig), w).
Proof.
  intros Hf Ho. unfold is_newer_than, bind.
  rewrite (isfile_true _ _ Hf). cbn. unfold stat.
  destruct Hf as (st & Hst & _). now rewrite Hst, Ho.
Qed.

(** The world is only read. *)
Lemma is_newer_than_world w target orig :
  snd (is_newer_than target orig w) = w.
Proof.
  destruct (isfile_cases w target) as [[Hf E]|[Hno E]].
  - unfold is_newer_than, bind. rewrite E. cbn. unfold stat.
    destruct Hf as (st & -> & _).
    now destruct (files w !! orig).
  - now rewrite is_newer_than_absent.
Qed.

(** Membership of a path in a concrete world. *)
Ltac on_disk := eexists; split; [vm_compute; reflexivity | reflexivity].
Ltac not_on_disk :=
  let H := fresh in intros (? & H & ?); vm_compute in H; discriminate.

(** ** The freshness helper *)

(** C8. [is_newer_than] answers [False] whenever the target does not exist as
    a regular file; when it does, and both modification times are known, the
    answer is [True] exactly when the target's time is at least the
    reference's, so equal times give [True].  The world is left as it was. *)
Theorem is_newer_than_spec (w : World) (target orig : string) :
  (~ is_file w target -> is_newer_than target orig w = (Ok false, w)) /\
  (is_file w target ->
   forall mt mo, mtime w target = Some mt -> mtime w orig = Some mo ->
     (exists b, is_newer_than target orig w = (Ok b, w) /\
                (b = true <-> (mt >= mo)%Z)) /\
     (mt = mo -> is_newer_than target orig w = (Ok true, w))).
Proof.
  split; [apply is_newer_than_absent|].
  intros Hf mt mo Ht Ho.
  pose proof (is_newer_than_present w target orig mt mo Hf Ht Ho) as E.
  split.
  - exists (mt >=? mo)%Z. split; [exact E|]. rewrite Z.geb_leb, Z.leb_le. lia.
  - intros ->. rewrite E. f_equal. f_equal. rewrite Z.geb_leb. apply Z.leb_refl.
Qed.

Lemma is_newer_than_spec_witness :
  is_newer_than "s.bam.bai" "s.bam" fresh_disk = (Ok false, fresh_disk) /\
  is_newer_than "s.bai" "s.bam" fresh_disk = (Ok true, fresh_disk).
Proof.
  split.
  - apply (proj1 (is_newer_than_spec fresh_disk "s.bam.bai" "s.bam")).
    not_on_disk.
  - apply (proj2 (is_newer_than_spec fresh_disk "s.bai" "s.bam")
             ltac:(on_disk) 10 10 eq_refl eq_refl).
    reflexivity.
Defined.

(** ** Counting mapped reads *)

Lemma well_formed_fields line :
  well_formed_line line -> exists a b c d, Py.split line = [a; b; c; d].
Proof.
  unfold well_formed_line. intros H.
  destruct (Py.split line) as [|a [|b [|c [|d [|e l]]]]]; try discriminate.
  now exists a, b, c, d.
Qed.

Lemma malformed_fields line :
  ~ well_formed_line line ->
  forall a b c d, Py.split line <> [a; b; c; d].
Proof.
  intros H a b c d E. apply H. unfold well_formed_line. now rewrite E.
Qed.

(** The loop with accumulator [tot] adds the specification's sum to it. *)
Lemma count_mapped_sum lines :
  Forall well_formed_line lines ->
  forall tot,
    count_mapped tot lines =
    match sum_mapped lines with
    | Ok s => Ok (tot + s)
    | Raise e => Raise e
    end.
Proof.
  induction 1 as [|line rest Hwf _ IH]; intros tot; cbn.
  - f_equal. lia.
  - destruct (well_formed_fields _ Hwf) as (a & b & c & d & E).
    unfold mapped_count. rewrite E. cbn.
    destruct (Py.int c) as [n|]; [|reflexivity].
    rewrite IH. destruct (sum_mapped rest); [f_equal; lia | reflexivity].
Qed.

(** A malformed line stops the loop with the unpacking error, whatever
    follows it. *)
Lemma count_mapped_malformed line rest tot :
  ~ well_formed_line line ->
  count_mapped tot (line :: rest) =
  Raise (ValueError (UnpackMismatch (length (Py.split line)))).
Proof.
  intros H. pose proof (malformed_fields _ H) as Hne. cbn.
  destruct (Py.split line) as [|a [|b [|c [|d [|e l]]]]]; try reflexivity.
  now destruct (Hne a b c d).
Qed.

Lemma count_mapped_app before after tot :
  count_mapped tot (before ++ after)%list =
  match count_mapped tot before with
  | Ok tot' => count_mapped tot' after
  | Raise e => Raise e
  end.
Proof.
  revert tot. induction before as [|line rest IH]; intros tot; cbn; [reflexivity|].
  destruct (Py.split line) as [|a [|b [|c [|d [|e l]]]]]; try reflexivity.
  destruct (Py.int c); [apply IH | reflexivity].
Qed.

(** Every failure of the loop is a [ValueError]. *)
Lemma count_mapped_raises lines tot e :
  count_mapped tot lines = Raise e -> exists why, e = ValueError why.
Proof.
  revert tot. induction lines as [|line rest IH]; intros tot; cbn; [discriminate|].
  destruct (Py.split line) as [|a [|b [|c [|d [|x l]]]]];
    try (intros [= <-]; eauto).
  destruct (Py.int c); [apply IH | intros [= <-]; eauto].
Qed.

Lemma bam_total_reads_unfold w bam_fname out :
  idxstats w !! bam_fname = Some out ->
  bam_total_reads bam_fname w = (count_mapped 0 (stats_lines out), w).
Proof.
  intros H. unfold bam_total_reads, bind, pysam_idxstats. now rewrite H.
Qed.

(** The loop on well-formed lines, whichever form the statistics came in. *)
Lemma bam_total_reads_lines (w : World) (bam_fname : string) (out : idxstats_output) :
  idxstats w !! bam_fname = Some out ->
  Forall well_formed_line (stats_lines out) ->
  bam_total_reads bam_fname w = (sum_mapped (stats_lines out), w) /\
  forall counts : list Z,
    Forall2 (fun line n => mapped_count line = Ok n) (stats_lines out) counts ->
    bam_total_reads bam_fname w = (Ok (foldr Z.add 0 counts), w).
Proof.
  intros Hout Hwf. rewrite (bam_total_reads_unfold _ _ _ Hout).
  rewrite (count_mapped_sum _ Hwf).
  assert (E : match sum_mapped (stats_lines out) with
              | Ok s => Ok (0 + s) | Raise e => Raise e end
              = sum_mapped (stats_lines out)).
  { destruct (sum_mapped (stats_lines out)); [f_equal; lia | reflexivity]. }
  rewrite E. split; [reflexivity|].
  intros counts Hc. f_equal. clear E Hwf Hout.
  induction Hc as [|line n rest ns Hn _ IH]; cbn; [reflexivity|].
  now rewrite Hn, IH.
Qed.

(** C1. When every statistics line splits into exactly four fields,
    [bam_total_reads] gives the sum over all lines of the third field parsed
    as an integer, and leaves the world as it was.  The lines are the
    elements of the list pysam gave, or the lines of the string it gave; the
    sum is the specification's [sum_mapped] over them, and when the third
    fields read as the integers [counts] it is the sum of [counts]. *)
Theorem bam_total_reads_sum (w : World) (bam_fname : string) :
  (forall lines : list string,
     idxstats w !! bam_fname = Some (StatsLines lines) ->
     Forall well_formed_line lines ->
     bam_total_reads bam_fname w = (sum_mapped lines, w) /\
     forall counts : list Z,
       Forall2 (fun line n => mapped_count line = Ok n) lines counts ->
       bam_total_reads bam_fname w = (Ok (foldr Z.add 0 counts), w)) /\
  (forall text : string,
     idxstats w !! bam_fname = Some (StatsText text) ->
     Forall well_formed_line (Py.splitlines text) ->
     bam_total_reads bam_fname w = (sum_mapped (Py.splitlines text), w) /\
     forall counts : list Z,
       Forall2 (fun line n => mapped_count line = Ok n) (Py.splitlines text) counts ->
       bam_total_reads bam_fname w = (Ok (foldr Z.add 0 counts), w)).
Proof.
  split.
  - intros lines Hout Hwf.
    exact (bam_total_reads_lines w bam_fname (StatsLines lines) Hout Hwf).
  - intros text Hout Hwf.
    exact (bam_total_reads_lines w bam_fname (StatsText text) Hout Hwf).
Qed.

Lemma sample_stats_lines :
  stats_lines sample_stats = ["chr1	1000	42	0"; "chr2	500	8	1"; "*	0	0	3"].
Proof. vm_compute. reflexivity. Qed.

Lemma sample_text_lines :
  Py.splitlines "chr1	1000	42	0
chr2	500	8	1
*	0	0	3
" = ["chr1	1000	42	0"; "chr2	500	8	1"; "*	0	0	3"].
Proof. vm_compute. reflexivity. Qed.

Lemma sample_stats_well_formed : Forall well_formed_line (stats_lines sample_stats).
Proof. rewrite sample_stats_lines. repeat constructor. Qed.

Lemma bam_total_reads_sum_witness :
  bam_total_reads "sample.bam" (stats_world "sample.bam" sample_stats)
  = (Ok 50, stats_world "sample.bam" sample_stats) /\
  bam_total_reads "sample.bam"
    (stats_world "sample.bam" (StatsLines ["chr1 10 4 0"; "chr2 20 6 1"]))
  = (Ok 10, stats_world "sample.bam" (StatsLines ["chr1 10 4 0"; "chr2 20 6 1"])).
Proof.
  split.
  - apply (proj2 (proj2 (bam_total_reads_sum
                           (stats_world "sample.bam" sample_stats) "sample.bam")
                   _ eq_refl
                   ltac:(rewrite sample_text_lines; repeat constructor))
                 [42; 8; 0]).
    rewrite sample_text_lines.
    repeat (constructor; [vm_compute; reflexivity|]). constructor.
  - apply (proj2 (proj1 (bam_total_reads_sum
                           (stats_world "sample.bam"
                              (StatsLines ["chr1 10 4 0"; "chr2 20 6 1"]))
                           "sample.bam")
                   ["chr1 10 4 0"; "chr2 20 6 1"] eq_refl
                   ltac:(repeat constructor))
                 [4; 6]).
    repeat (constructor; [vm_compute; reflexivity|]). constructor.
Defined.

(** C7. When some statistics line does not split into exactly four fields,
    [bam_total_reads] raises a [ValueError] and returns no sum, whatever the
    lines before it added up to and whatever follows; when the lines before
    it were all summed, the error is the one of unpacking that very line.
    The world is left as it was. *)
Theorem bam_total_reads_malformed (w : World) (bam_fname : string)
    (out : idxstats_output) (before after : list string) (line : string) :
  idxstats w !! bam_fname = Some out ->
  stats_lines out = (before ++ line :: after)%list ->
  ~ well_formed_line line ->
  exists why,
    bam_total_reads bam_fname w = (Raise (ValueError why), w) /\
    (forall tot, count_mapped 0 before = Ok tot ->
       why = UnpackMismatch (length (Py.split line))).
Proof.
  intros Hout Hlines Hbad. rewrite (bam_total_reads_unfold _ _ _ Hout), Hlines.
  rewrite count_mapped_app.
  destruct (count_mapped 0 before) as [tot|e] eqn:Hb.
  - rewrite (count_mapped_malformed _ _ _ Hbad). eexists. split; [reflexivity|].
    reflexivity.
  - destruct (count_mapped_raises _ _ _ Hb) as [why ->].
    exists why. split; [reflexivity | discriminate].
Qed.

Lemma bam_total_reads_malformed_witness :
  exists why,
    bam_total_reads "sample.bam" (stats_world "sample.bam" short_stats)
    = (Raise (ValueError why), stats_world "sample.bam" short_stats) /\
    (forall tot, count_mapped 0 ["chr1 1000 42 0"] = Ok tot ->
       why = UnpackMismatch (length (Py.split "chr2 500 8"))).
Proof.
  apply (bam_total_reads_malformed (stats_world "sample.bam" short_stats)
           "sample.bam" short_stats ["chr1 1000 42 0"] ["chr3 7 1 0"] "chr2 500 8"
           eq_refl eq_refl).
  unfold well_formed_line. vm_compute. discriminate.
Defined.

(** *** Signs *)

Lemma digit_range c d : Py.digit c = Some d -> 0 <= d <= 9.
Proof.
  unfold Py.digit.
  destruct (48 <=? N_of_ascii c)%N eqn:Hlo; [|discriminate].
  destruct (N_of_ascii c <=? 57)%N eqn:Hhi; [|discriminate].
  cbn. intros [= <-]. apply N.leb_le in Hlo, Hhi. lia.
Qed.

Lemma digits_nonneg s : forall acc n, Py.digits acc s = Some n -> 0 <= acc -> 0 <= n.
Proof.
  induction s as [|c s IH]; intros acc n; cbn.
  - intros [= <-]. trivial.
  - destruct (Py.digit c) as [d|] eqn:Hd; [|discriminate].
    intros H Hacc. apply (IH _ _ H). pose proof (digit_range _ _ Hd). lia.
Qed.

(** A run of digits is read by [int] as it stands, and is not negative. *)
Lemma int_unsigned s n :
  Py.unsigned_literal s = Some n -> Py.int s = Some n /\ 0 <= n.
Proof.
  destruct s as [|c s]; [discriminate|]. intros H. split.
  - cbn [Py.int]. cbn in H.
    destruct (Ascii.eqb_spec c "+"%char) as [->|_]; [discriminate|].
    destruct (Ascii.eqb_spec c "-"%char) as [->|_]; [discriminate|].
    exact H.
  - apply (digits_nonneg _ _ _ H). lia.
Qed.

Lemma count_mapped_nonneg lines :
  Forall unsigned_count lines ->
  forall tot, 0 <= tot -> exists n, count_mapped tot lines = Ok n /\ 0 <= n.
Proof.
  induction 1 as [|line rest (a & b & c & d & E & [n Hn]) _ IH]; intros tot Htot; cbn.
  - now exists tot.
  - rewrite E. destruct (int_unsigned _ _ Hn) as [-> Hpos]. apply IH. lia.
Qed.

Lemma unsigned_literal_nonneg s k : Py.unsigned_literal s = Some k -> 0 <= k.
Proof.
  destruct s as [|c s]; [discriminate|]. intros H.
  apply (digits_nonneg _ _ _ H). lia.
Qed.

(** What [int] reads from a literal without a minus sign is not negative. *)
Lemma int_no_minus c rest k :
  Py.int (String c rest) = Some k -> c <> "-"%char -> 0 <= k.
Proof.
  cbn [Py.int]. intros H Hc.
  destruct (Ascii.eqb_spec c "+"%char) as [_|_];
    [now apply (unsigned_literal_nonneg rest)|].
  destruct (Ascii.eqb_spec c "-"%char) as [->|_]; [congruence|].
  now apply (unsigned_literal_nonneg (String c rest)).
Qed.

Lemma count_mapped_no_minus lines :
  Forall no_minus_count lines ->
  forall tot n, 0 <= tot -> count_mapped tot lines = Ok n -> 0 <= n.
Proof.
  induction 1 as [|line rest Hline _ IH]; intros tot n Htot; cbn.
  - now intros [= <-].
  - unfold no_minus_count in Hline.
    destruct (Py.split line) as [|x1 [|x2 [|x3 [|x4 [|x5 l]]]]]; try discriminate.
    destruct (Py.int x3) as [m|] eqn:Hm; [|discriminate].
    destruct x3 as [|c x3]; [discriminate|].
    pose proof (int_no_minus _ _ _ Hm (Hline c x3 eq_refl)).
    apply IH. lia.
Qed.

Lemma unsigned_count_mapped line :
  unsigned_count line -> exists k, mapped_count line = Ok k /\ 0 <= k.
Proof.
  intros (a & b & c & d & E & [k Hk]). exists k.
  destruct (int_unsigned _ _ Hk) as [Hint Hpos].
  unfold mapped_count. rewrite E. cbn. now rewrite Hint.
Qed.

(** C9. The counts in the index statistics are written by samtools as
    unsigned decimal integers.  On such lines every count [bam_total_reads]
    reads is a non-negative integer and so is the total it returns; more
    widely, a total it returns is non-negative whenever no count opens with a
    minus sign. *)
Theorem bam_total_reads_nonneg (w : World) (bam_fname : string) (out : idxstats_output) :
  idxstats w !! bam_fname = Some out ->
  (Forall unsigned_count (stats_lines out) ->
   Forall (fun line => exists k, mapped_count line = Ok k /\ 0 <= k) (stats_lines out) /\
   exists n, bam_total_reads bam_fname w = (Ok n, w) /\ 0 <= n) /\
  (forall n : Z,
     Forall no_minus_count (stats_lines out) ->
     bam_total_reads bam_fname w = (Ok n, w) -> 0 <= n).
Proof.
  intros Hout. rewrite (bam_total_reads_unfold _ _ _ Hout). split.
  - intros Hu. split.
    + eapply Forall_impl; [exact Hu|]. apply unsigned_count_mapped.
    + destruct (count_mapped_nonneg _ Hu 0 ltac:(lia)) as (n & -> & Hn).
      now exists n.
  - intros n Hno [= H]. apply (count_mapped_no_minus _ Hno 0 n); [lia | exact H].
Qed.

Lemma bam_total_reads_nonneg_witness :
  (exists n,
     bam_total_reads "sample.bam" (stats_world "sample.bam" sample_stats)
     = (Ok n, stats_world "sample.bam" sample_stats) /\ 0 <= n) /\
  0 <= 9.
Proof.
  split.
  - apply (proj1 (bam_total_reads_nonneg (stats_world "sample.bam" sample_stats)
                    "sample.bam" sample_stats eq_refl)).
    rewrite sample_stats_lines.
    repeat (constructor;
            [unfold unsigned_count; do 4 eexists;
             split; [vm_compute; reflexivity | vm_compute; eauto]|]).
    constructor.
  - apply (proj2 (bam_total_reads_nonneg
                    (stats_world "sample.bam" (StatsLines ["chr1 10 +5 0"; "chr2 9 4 1"]))
                    "sample.bam" (StatsLines ["chr1 10 +5 0"; "chr2 9 4 1"]) eq_refl) 9).
    + repeat constructor; intros c rest H; vm_compute in H;
        injection H as <- _; discriminate.
    + vm_compute. reflexivity.
Defined.

(** The module itself checks no sign: were pysam to hand over a count with a
    minus sign, it would be summed as it is. *)
Lemma bam_total_reads_negative :
  Forall well_formed_line (stats_lines signed_stats) /\
  bam_total_reads "sample.bam" (stats_world "sample.bam" signed_stats)
  = (Ok (-5), stats_world "sample.bam" signed_stats) /\
  ~ (0 <= -5).
Proof.
  split; [repeat constructor|]. split; [vm_compute; reflexivity | lia].
Qed.

(** ** Probing the order of the records *)

(** [<=] on byte strings is the lexicographic order. *)
Lemma str_le_lex a : forall b, Py.str_le a b = true <-> lex_le a b.
Proof.
  unfold Py.str_le, String.leb.
  induction a as [|c1 a IH]; intros [|c2 b]; cbn.
  - split; [constructor | reflexivity].
  - split; [constructor | reflexivity].
  - split; [discriminate | inversion 1].
  - unfold Ascii.compare.
    destruct (N.compare_spec (N_of_ascii c1) (N_of_ascii c2)) as [E|L|G].
    + assert (c1 = c2) as ->.
      { rewrite <- (ascii_N_embedding c1), <- (ascii_N_embedding c2). now rewrite E. }
      rewrite IH. split; [now constructor|].
      inversion 1; subst; [lia | assumption].
    + split; [intros _; now constructor | reflexivity].
    + split; [discriminate|].
      inversion 1; subst; lia.
Qed.

(** The test of the loop against a predecessor is the specification's
    ordering, negated. *)
Lemma out_of_order_in_order by_name prev read :
  out_of_order by_name read (Some prev) = false <-> in_order by_name prev read.
Proof.
  unfold out_of_order, in_order. destruct by_name.
  - rewrite negb_false_iff. apply str_le_lex.
  - rewrite negb_false_iff, orb_true_iff, negb_true_iff, Z.eqb_neq, Z.leb_le.
    reflexivity.
Qed.

(** The first record is never out of order. *)
Lemma out_of_order_first by_name read : out_of_order by_name read None = false.
Proof. now destruct by_name. Qed.

Lemma consecutive_nil by_name : consecutive_in_order by_name [].
Proof. intros i prev read H. discriminate. Qed.

Lemma consecutive_one by_name r : consecutive_in_order by_name [r].
Proof. intros [|i] prev read _ H; discriminate. Qed.

Lemma consecutive_cons by_name p r l :
  consecutive_in_order by_name (p :: r :: l) <->
  in_order by_name p r /\ consecutive_in_order by_name (r :: l).
Proof.
  split.
  - intros H. split.
    + now apply (H 0%nat).
    + intros i prev read Hp Hr. now apply (H (S i)).
  - intros [Hpr H] [|i] prev read Hp Hr.
    + cbn in Hp, Hr. congruence.
    + now apply (H i).
Qed.

(** From the second record on, the loop's invariant is the specification's
    pairwise ordering. *)
Lemma passes_consecutive by_name p l :
  passes by_name (Some p) l <-> consecutive_in_order by_name (p :: l).
Proof.
  revert p. induction l as [|r l IH]; intros p; cbn.
  - split; [intros _; apply consecutive_one | trivial].
  - now rewrite consecutive_cons, out_of_order_in_order, IH.
Qed.

Lemma passes_none by_name l :
  passes by_name None l <-> consecutive_in_order by_name l.
Proof.
  destruct l as [|r l]; cbn.
  - split; [intros _; apply consecutive_nil | trivial].
  - rewrite passes_consecutive. pose proof (out_of_order_first by_name r). tauto.
Qed.

(** The loop answers [True] exactly when the first [span] records pass. *)
Lemma scan_reads_passes by_name span :
  forall last bam,
    fst (scan_reads by_name span last bam) = true <->
    passes by_name last (take span bam).
Proof.
  induction span as [|span IH]; intros last bam; cbn; [easy|].
  destruct bam as [|read bam]; cbn; [easy|].
  destruct (out_of_order by_name read last) eqn:E; cbn.
  - split; [discriminate | intros [? _]; discriminate].
  - rewrite IH. intuition.
Qed.

(** What the loop leaves in the iterator is the stream less a prefix of at
    most [span] records. *)
Lemma scan_reads_rest by_name span :
  forall last bam,
    exists k : nat, (k <= span)%nat /\ snd (scan_reads by_name span last bam) = drop k bam.
Proof.
  induction span as [|span IH]; intros last bam; cbn.
  - exists 0%nat. split; [lia | reflexivity].
  - destruct bam as [|read bam]; cbn.
    + exists 0%nat. split; [lia | reflexivity].
    + destruct (out_of_order by_name read last).
      * exists 1%nat. split; [lia | reflexivity].
      * destruct (IH (Some read) bam) as (k & Hk & E).
        exists (S k). split; [lia | exact E].
Qed.

(** Only the first [span] records decide the answer. *)
Lemma scan_reads_take by_name span last bam :
  fst (scan_reads by_name span last bam)
  = fst (scan_reads by_name span last (take span bam)).
Proof.
  revert last bam. induction span as [|span IH]; intros last bam; cbn; [reflexivity|].
  destruct bam as [|read bam]; cbn; [reflexivity|].
  destruct (out_of_order by_name read last); [reflexivity | apply IH].
Qed.

(** At the first record out of order the loop stops: the answer is [False]
    and everything after that record is still in the iterator. *)
Lemma scan_reads_stops by_name read after before :
  forall span last_read,
    (length before < span)%nat ->
    passes by_name last_read before ->
    out_of_order by_name read (last_read_after last_read before) = true ->
    scan_reads by_name span last_read (before ++ read :: after)%list = (false, after).
Proof.
  induction before as [|r before IH]; intros [|span] last_read Hlen Hpass Hout;
    cbn in Hlen; try lia; cbn.
  - cbn in Hout. now rewrite Hout.
  - destruct Hpass as [Hr Hpass]. rewrite Hr. apply IH; [lia | assumption|].
    unfold last_read_after in *. rewrite last_cons in Hout.
    now destruct (last before).
Qed.

Lemma last_read_after_snoc last_read before prev :
  last_read_after last_read (before ++ [prev]) = Some prev.
Proof. unfold last_read_after. now rewrite last_snoc. Qed.

Lemma not_in_order by_name prev read :
  ~ in_order by_name prev read -> out_of_order by_name read (Some prev) = true.
Proof.
  intros H. destruct (out_of_order by_name read (Some prev)) eqn:E; [reflexivity|].
  now apply out_of_order_in_order in E.
Qed.

Lemma ensure_bam_sorted_unfold w bam_fname by_name span bam :
  samfile w !! bam_fname = Some bam -> 0 <= span <= Py.maxsize ->
  ensure_bam_sorted bam_fname by_name span w
  = (Ok (fst (scan_reads by_name (Z.to_nat span) None bam)), w).
Proof.
  intros Hb Hs. unfold ensure_bam_sorted, bind, pysam_Samfile. rewrite Hb.
  destruct (Z.ltb_spec span 0); [lia|].
  destruct (Z.ltb_spec Py.maxsize span); [lia | reflexivity].
Qed.

(** A span out of the range of [islice] raises, whatever the file holds. *)
Lemma ensure_bam_sorted_bad_span w bam_fname by_name span bam :
  samfile w !! bam_fname = Some bam -> ~ 0 <= span <= Py.maxsize ->
  ensure_bam_sorted bam_fname by_name span w = (Raise (ValueError (BadStop span)), w).
Proof.
  intros Hb Hs. unfold ensure_bam_sorted, bind, pysam_Samfile. rewrite Hb.
  destruct (Z.ltb_spec span 0); [reflexivity|].
  destruct (Z.ltb_spec Py.maxsize span); [reflexivity | lia].
Qed.

(** An answer was given: the span was in range. *)
Lemma ensure_bam_sorted_answered w w' bam_fname by_name span bam sorted :
  samfile w !! bam_fname = Some bam ->
  ensure_bam_sorted bam_fname by_name span w = (Ok sorted, w') ->
  0 <= span <= Py.maxsize.
Proof.
  intros Hb H.
  destruct (decide (0 <= span <= Py.maxsize)) as [Hs|Hs]; [exact Hs|].
  rewrite (ensure_bam_sorted_bad_span _ _ _ _ _ Hb Hs) in H. discriminate.
Qed.

Lemma default_span_in_range : 0 <= default_span <= Py.maxsize.
Proof. unfold default_span, Py.maxsize. lia. Qed.

(** C3. On the records of the file, and for a span [islice] accepts,
    [ensure_bam_sorted] answers whether every record among the first [span]
    is in order with its predecessor: by name, its query name is
    lexicographically at least the predecessor's; by position, it lies on
    another reference or at a position at least the predecessor's.  The
    records (0,10), (0,20), (1,5) are sorted by position and (0,20), (0,10)
    are not, whatever their names. *)
Theorem ensure_bam_sorted_pairwise :
  (forall (w : World) (bam_fname : string) (by_name : bool) (span : Z)
          (bam : list AlignedRead),
     samfile w !! bam_fname = Some bam -> 0 <= span <= Py.maxsize ->
     exists sorted : bool,
       ensure_bam_sorted bam_fname by_name span w = (Ok sorted, w) /\
       (sorted = true <->
        consecutive_in_order by_name (take (Z.to_nat span) bam))) /\
  (forall q1 q2 q3 : string,
     let bam := [mkRead 0 10 q1; mkRead 0 20 q2; mkRead 1 5 q3] in
     ensure_bam_sorted "sample.bam" false default_span (reads_world "sample.bam" bam)
     = (Ok true, reads_world "sample.bam" bam)) /\
  (forall q1 q2 : string,
     let bam := [mkRead 0 20 q1; mkRead 0 10 q2] in
     ensure_bam_sorted "sample.bam" false default_span (reads_world "sample.bam" bam)
     = (Ok false, reads_world "sample.bam" bam)).
Proof.
  split; [|split].
  - intros w bam_fname by_name span bam Hb Hs.
    rewrite (ensure_bam_sorted_unfold _ _ _ _ _ Hb Hs).
    eexists. split; [reflexivity|].
    now rewrite scan_reads_passes, passes_none.
  - intros q1 q2 q3 bam.
    now rewrite (ensure_bam_sorted_unfold (reads_world "sample.bam" bam)
                   "sample.bam" false default_span bam eq_refl
                   default_span_in_range).
  - intros q1 q2 bam.
    now rewrite (ensure_bam_sorted_unfold (reads_world "sample.bam" bam)
                   "sample.bam" false default_span bam eq_refl
                   default_span_in_range).
Qed.

Lemma ensure_bam_sorted_pairwise_witness :
  let bam := [mkRead 0 10 "readA"; mkRead 0 20 "readA"; mkRead 1 5 "readB"] in
  exists sorted : bool,
    ensure_bam_sorted "sample.bam" true 2 (reads_world "sample.bam" bam)
    = (Ok sorted, reads_world "sample.bam" bam) /\
    (sorted = true <-> consecutive_in_order true (take (Z.to_nat 2) bam)).
Proof.
  intros bam.
  apply (proj1 ensure_bam_sorted_pairwise (reads_world "sample.bam" bam)
           "sample.bam" true 2 bam eq_refl).
  unfold Py.maxsize. lia.
Defined.

(** C4. For a span [islice] accepts, [ensure_bam_sorted] looks at no more
    than the first [span] records, the first 50 with the default span: files
    that agree on them get the same answer, and the loop takes at most [span]
    records from the iterator.  At the first record out of order with its
    predecessor the answer is [False] and the records after it are never
    taken.  The answer is [True] for a file with no record or a single one,
    and whenever the first [span] records are in order, by name or by
    position. *)
Theorem ensure_bam_sorted_sample (w : World) (bam_fname : string) (by_name : bool)
    (span : Z) (bam : list AlignedRead) :
  samfile w !! bam_fname = Some bam -> 0 <= span <= Py.maxsize ->
  (forall (w' : World) (bam' : list AlignedRead),
     samfile w' !! bam_fname = Some bam' ->
     take 50 bam' = take 50 bam ->
     fst (ensure_bam_sorted bam_fname by_name default_span w')
     = fst (ensure_bam_sorted bam_fname by_name default_span w)) /\
  (forall (w' : World) (bam' : list AlignedRead),
     samfile w' !! bam_fname = Some bam' ->
     take (Z.to_nat span) bam' = take (Z.to_nat span) bam ->
     fst (ensure_bam_sorted bam_fname by_name span w')
     = fst (ensure_bam_sorted bam_fname by_name span w)) /\
  (exists taken : nat,
     (taken <= Z.to_nat span)%nat /\
     snd (scan_reads by_name (Z.to_nat span) None bam) = drop taken bam) /\
  (forall (before after : list AlignedRead) (prev read : AlignedRead),
     bam = (before ++ prev :: read :: after)%list ->
     (length before + 2 <= Z.to_nat span)%nat ->
     consecutive_in_order by_name (before ++ [prev]) ->
     ~ in_order by_name prev read ->
     ensure_bam_sorted bam_fname by_name span w = (Ok false, w) /\
     snd (scan_reads by_name (Z.to_nat span) None bam) = after) /\
  ((length bam <= 1)%nat ->
   ensure_bam_sorted bam_fname by_name span w = (Ok true, w)) /\
  (consecutive_in_order by_name (take (Z.to_nat span) bam) ->
   ensure_bam_sorted bam_fname by_name span w = (Ok true, w)).
Proof.
  intros Hb Hs.
  assert (Hprefix : forall (n : Z) (w' : World) (bam' : list AlignedRead),
             0 <= n <= Py.maxsize ->
             samfile w' !! bam_fname = Some bam' ->
             take (Z.to_nat n) bam' = take (Z.to_nat n) bam ->
             fst (ensure_bam_sorted bam_fname by_name n w')
             = fst (ensure_bam_sorted bam_fname by_name n w)).
  { intros n w' bam' Hn Hb' Htake.
    rewrite (ensure_bam_sorted_unfold _ _ _ _ _ Hb' Hn),
      (ensure_bam_sorted_unfold _ _ _ _ _ Hb Hn). cbn.
    rewrite (scan_reads_take _ _ _ bam'), (scan_reads_take _ _ _ bam).
    now rewrite Htake. }
  rewrite (ensure_bam_sorted_unfold _ _ _ _ _ Hb Hs).
  assert (Hsorted : consecutive_in_order by_name (take (Z.to_nat span) bam) ->
                    (Ok (fst (scan_reads by_name (Z.to_nat span) None bam)), w)
                    = (Ok true, w)).
  { intros H. f_equal. f_equal. now apply scan_reads_passes, passes_none. }
  split; [|split; [|split; [|split; [|split]]]].
  - intros w' bam' Hb' Htake.
    now apply (Hprefix default_span w' bam' default_span_in_range).
  - intros w' bam' Hb' Htake.
    rewrite <- (ensure_bam_sorted_unfold _ _ _ _ _ Hb Hs).
    now apply (Hprefix span w' bam' Hs).
  - apply scan_reads_rest.
  - intros before after prev read -> Hlen Hord Hbad.
    assert (E : scan_reads by_name (Z.to_nat span) None
                  ((before ++ [prev]) ++ read :: after)%list = (false, after)).
    { apply scan_reads_stops.
      - rewrite length_app. cbn. lia.
      - now apply passes_none.
      - rewrite last_read_after_snoc. now apply not_in_order. }
    rewrite <- app_assoc in E. cbn in E. now rewrite E.
  - intros Hlen. apply Hsorted.
    destruct bam as [|r [|r' bam]]; cbn in Hlen; try lia.
    + rewrite take_nil. apply consecutive_nil.
    + destruct (Z.to_nat span); cbn; [apply consecutive_nil|].
      rewrite take_nil. apply consecutive_one.
  - exact Hsorted.
Qed.

Lemma ensure_bam_sorted_sample_witness :
  let bam := [mkRead 0 20 "r1"; mkRead 0 10 "r2"; mkRead 0 5 "r3"; mkRead 0 1 "r4"] in
  ensure_bam_sorted "sample.bam" false 50 (reads_world "sample.bam" bam)
  = (Ok false, reads_world "sample.bam" bam) /\
  snd (scan_reads false (Z.to_nat 50) None bam) = [mkRead 0 5 "r3"; mkRead 0 1 "r4"].
Proof.
  intros bam.
  refine (proj1 (proj2 (proj2 (proj2
            (ensure_bam_sorted_sample (reads_world "sample.bam" bam) "sample.bam"
               false 50 bam eq_refl ltac:(unfold Py.maxsize; lia)))))
            [] [mkRead 0 5 "r3"; mkRead 0 1 "r4"] (mkRead 0 20 "r1") (mkRead 0 10 "r2")
            eq_refl _ _ _).
  - vm_compute. lia.
  - apply consecutive_one.
  - unfold in_order. cbn. lia.
Defined.

(** ** Keeping the index *)

Lemma substring_drop_last a s :
  s <> EmptyString ->
  Py.drop_last (String a s) = String a (Py.drop_last s).
Proof.
  unfold Py.drop_last. destruct s as [|b s]; [congruence|]. intros _.
  cbn [String.length Nat.sub]. rewrite Nat.sub_0_r. reflexivity.
Qed.

(** [bam_fname[:-1] + 'i'] replaces the last character of a name that has
    one. *)
Lemma drop_last_replace s :
  s <> EmptyString -> Py.drop_last s +:+ "i" = replace_last s "i"%char.
Proof.
  induction s as [|a s IH]; [congruence|]. intros _.
  destruct s as [|b s]; [reflexivity|].
  rewrite substring_drop_last by congruence.
  change (String a (Py.drop_last (String b s) +:+ "i")
          = String a (replace_last (String b s) "i"%char)).
  f_equal. now apply IH.
Qed.

Lemma bai_candidate_primary w bam_fname :
  is_file w (bam_fname +:+ ".bai") ->
  bai_candidate bam_fname w = (Ok (bam_fname +:+ ".bai"), w).
Proof.
  intros H. unfold bai_candidate, bind. now rewrite (isfile_true _ _ H).
Qed.

Lemma bai_candidate_fallback w bam_fname :
  ~ is_file w (bam_fname +:+ ".bai") ->
  bai_candidate bam_fname w = (Ok (Py.drop_last bam_fname +:+ "i"), w).
Proof.
  intros H. unfold bai_candidate, bind. now rewrite (isfile_false _ _ H).
Qed.

(** The candidate is always one of the two names, and the world is only
    read. *)
Lemma bai_candidate_total w bam_fname :
  exists c, bai_candidate bam_fname w = (Ok c, w).
Proof.
  destruct (isfile_cases w (bam_fname +:+ ".bai")) as [[H _]|[H _]].
  - eexists. now apply bai_candidate_primary.
  - eexists. now apply bai_candidate_fallback.
Qed.

(** A target found fresh exists as a file. *)
Lemma is_newer_than_true_file w w' target orig :
  is_newer_than target orig w = (Ok true, w') -> is_file w target.
Proof.
  intros H. destruct (isfile_cases w target) as [[Hf _]|[Hno _]]; [assumption|].
  rewrite (is_newer_than_absent _ _ _ Hno) in H. discriminate.
Qed.

(** The three ways [ensure_bam_index] can go once the candidate is known. *)
Lemma ensure_bam_index_fresh pysam_index w bam_fname c :
  bai_candidate bam_fname w = (Ok c, w) ->
  is_newer_than c bam_fname w = (Ok true, w) ->
  ensure_bam_index pysam_index bam_fname w = (Ok c, w).
Proof.
  intros Hc Hn. unfold ensure_bam_index, bind at 1. rewrite Hc.
  unfold bind at 1. rewrite Hn. cbn [negb]. unfold bind, ret at 1.
  now rewrite (isfile_true _ _ (is_newer_than_true_file _ _ _ _ Hn)).
Qed.

Lemma ensure_bam_index_stale pysam_index w bam_fname c :
  bai_candidate bam_fname w = (Ok c, w) ->
  is_newer_than c bam_fname w = (Ok false, w) ->
  ensure_bam_index pysam_index bam_fname w = regenerate pysam_index bam_fname w.
Proof.
  intros Hc Hn. unfold ensure_bam_index, bind at 1. rewrite Hc.
  unfold bind at 1. rewrite Hn. reflexivity.
Qed.

Lemma ensure_bam_index_raises pysam_index w bam_fname c e :
  bai_candidate bam_fname w = (Ok c, w) ->
  is_newer_than c bam_fname w = (Raise e, w) ->
  ensure_bam_index pysam_index bam_fname w = (Raise e, w).
Proof.
  intros Hc Hn. unfold ensure_bam_index, bind at 1. rewrite Hc.
  unfold bind at 1. now rewrite Hn.
Qed.

(** The freshness test always ends in the world it started in. *)
Lemma is_newer_than_cases w target orig :
  exists r, is_newer_than target orig w = (r, w).
Proof.
  pose proof (is_newer_than_world w target orig) as H.
  destruct (is_newer_than target orig w) as [r w'] eqn:E. cbn in H. subst w'.
  now exists r.
Qed.

(** Regeneration, step by step. *)
Lemma regenerate_unfold pysam_index w bam_fname :
  regenerate pysam_index bam_fname w =
  match pysam_index bam_fname (announced bam_fname w) with
  | (Ok _, w') =>
      match files w' !! (bam_fname +:+ ".bai") with
      | Some st =>
          if st_isreg st then (Ok (bam_fname +:+ ".bai"), w')
          else (Raise (AssertionError
                         ("Failed to generate index " +:+ (bam_fname +:+ ".bai"))), w')
      | None => (Raise (AssertionError
                         ("Failed to generate index " +:+ (bam_fname +:+ ".bai"))), w')
      end
  | (Raise e, w') => (Raise e, w')
  end.
Proof.
  unfold regenerate, reindex, bind, announced, logging_info, isfile, ret, raise. cbn.
  destruct (pysam_index bam_fname _) as [[[]|e] w']; [|reflexivity].
  destruct (files w' !! (bam_fname +:+ ".bai")) as [st|]; [|reflexivity].
  now destruct (st_isreg st).
Qed.

Lemma regenerate_ok pysam_index w bam_fname p w' :
  regenerate pysam_index bam_fname w = (Ok p, w') ->
  p = bam_fname +:+ ".bai" /\
  pysam_index bam_fname (announced bam_fname w) = (Ok tt, w') /\
  is_file w' (bam_fname +:+ ".bai").
Proof.
  rewrite regenerate_unfold.
  destruct (pysam_index bam_fname _) as [[[]|e] w2]; [|discriminate].
  destruct (files w2 !! (bam_fname +:+ ".bai")) as [st|] eqn:Hst; [|discriminate].
  destruct (st_isreg st) eqn:Hreg; [|discriminate].
  intros [= <- <-]. repeat split. now exists st.
Qed.

Lemma regenerate_missing pysam_index w bam_fname w' :
  pysam_index bam_fname (announced bam_fname w) = (Ok tt, w') ->
  ~ is_file w' (bam_fname +:+ ".bai") ->
  regenerate pysam_index bam_fname w
  = (Raise (AssertionError ("Failed to generate index " +:+ (bam_fname +:+ ".bai"))), w').
Proof.
  intros Hidx Hno. rewrite regenerate_unfold, Hidx.
  destruct (files w' !! (bam_fname +:+ ".bai")) as [st|] eqn:Hst; [|reflexivity].
  destruct (st_isreg st) eqn:Hreg; [|reflexivity].
  exfalso. apply Hno. now exists st.
Qed.

(** Every path [ensure_bam_index] returns exists as a file when it returns. *)
Lemma ensure_bam_index_returns_file pysam_index w bam_fname p w' :
  ensure_bam_index pysam_index bam_fname w = (Ok p, w') -> is_file w' p.
Proof.
  destruct (bai_candidate_total w bam_fname) as [c Hc].
  destruct (is_newer_than_cases w c bam_fname) as [[[]|e] Hn].
  - rewrite (ensure_bam_index_fresh _ _ _ _ Hc Hn). intros [= <- <-].
    exact (is_newer_than_true_file _ _ _ _ Hn).
  - rewrite (ensure_bam_index_stale _ _ _ _ Hc Hn). intros H.
    apply regenerate_ok in H as (-> & _ & Hf). exact Hf.
  - rewrite (ensure_bam_index_raises _ _ _ _ _ Hc Hn). discriminate.
Qed.

(** C2, as the code has it.  When the candidate index exists and is no older
    than the BAM file, [ensure_bam_index] returns the candidate at once: the
    world is as it was, nothing is logged and the indexer plays no part.  So
    a second call returns the same path and changes nothing provided the
    index the first call returned is no older than the BAM file in the world
    it left. *)
Theorem ensure_bam_index_idempotent (pysam_index : string -> M unit)
    (bam_fname : string) (w : World) :
  (forall (c : string) (mi mb : Z),
     bai_candidate bam_fname w = (Ok c, w) ->
     is_file w c -> mtime w c = Some mi -> mtime w bam_fname = Some mb ->
     mb <= mi ->
     ensure_bam_index pysam_index bam_fname w = (Ok c, w) /\
     (first <- ensure_bam_index pysam_index bam_fname ;;
      second <- ensure_bam_index pysam_index bam_fname ;;
      ret (first, second)) w = (Ok (c, c), w)) /\
  (forall (p : string) (w1 : World) (mi mb : Z),
     ensure_bam_index pysam_index bam_fname w = (Ok p, w1) ->
     mtime w1 p = Some mi -> mtime w1 bam_fname = Some mb -> mb <= mi ->
     ensure_bam_index pysam_index bam_fname w1 = (Ok p, w1)).
Proof.
  assert (fast : forall w0 c mi mb,
             bai_candidate bam_fname w0 = (Ok c, w0) ->
             is_file w0 c -> mtime w0 c = Some mi ->
             mtime w0 bam_fname = Some mb -> mb <= mi ->
             ensure_bam_index pysam_index bam_fname w0 = (Ok c, w0)).
  { intros w0 c mi mb Hc Hf Hi Hb Hle.
    apply ensure_bam_index_fresh; [assumption|].
    rewrite (is_newer_than_present _ _ _ _ _ Hf Hi Hb).
    f_equal. f_equal. rewrite Z.geb_leb. now apply Z.leb_le. }
  split.
  { intros c mi mb Hc Hf Hi Hb Hle.
    pose proof (fast w c mi mb Hc Hf Hi Hb Hle) as E.
    split; [exact E|]. unfold bind. now rewrite E, E. }
  intros p w1 mi mb Hfirst Hi Hb Hle.
  pose proof (ensure_bam_index_returns_file _ _ _ _ _ Hfirst) as Hf.
  apply (fast w1 p mi mb); try assumption.
  destruct (bai_candidate_total w bam_fname) as [c Hc].
  destruct (is_newer_than_cases w c bam_fname) as [[[]|e] Hn].
  - rewrite (ensure_bam_index_fresh _ _ _ _ Hc Hn) in Hfirst.
    now injection Hfirst as <- <-.
  - rewrite (ensure_bam_index_stale _ _ _ _ Hc Hn) in Hfirst.
    apply regenerate_ok in Hfirst as (-> & _ & Hp).
    now apply bai_candidate_primary.
  - rewrite (ensure_bam_index_raises _ _ _ _ _ Hc Hn) in Hfirst. discriminate.
Qed.


(** C6. When the candidate is not fresh and the indexer returns without
    [<bam_fname>.bai] being there, [ensure_bam_index] raises the
    [AssertionError] "Failed to generate index"; and a path it returns always
    exists as a file in the world it returns in. *)
Theorem ensure_bam_index_asserts (pysam_index : string -> M unit)
    (bam_fname : string) (w : World) :
  (forall (c : string) (w' : World),
     bai_candidate bam_fname w = (Ok c, w) ->
     is_newer_than c bam_fname w = (Ok false, w) ->
     pysam_index bam_fname (announced bam_fname w) = (Ok tt, w') ->
     ~ is_file w' (bam_fname +:+ ".bai") ->
     ensure_bam_index pysam_index bam_fname w
     = (Raise (AssertionError
                 ("Failed to generate index " +:+ (bam_fname +:+ ".bai"))), w')) /\
  (forall (p : string) (w' : World),
     ensure_bam_index pysam_index bam_fname w = (Ok p, w') -> is_file w' p).
Proof.
  split.
  - intros c w' Hc Hn Hidx Hno.
    rewrite (ensure_bam_index_stale _ _ _ _ Hc Hn).
    now apply regenerate_missing.
  - intros p w'. apply ensure_bam_index_returns_file.
Qed.

(** C10. When [<bam_fname>.bai] exists it is the candidate, and the fallback
    name plays no part: the candidate and its freshness are the same in every
    world that agrees on [<bam_fname>.bai] and on the BAM file; a
    [<bam_fname>.bai] older than the BAM file sends [ensure_bam_index] into
    regeneration, whatever else is on disk; and the only path returned is
    [<bam_fname>.bai]. *)
Theorem ensure_bam_index_primary_only (pysam_index : string -> M unit)
    (bam_fname : string) (w : World) :
  is_file w (bam_fname +:+ ".bai") ->
  (forall w2 : World,
     files w2 !! (bam_fname +:+ ".bai") = files w !! (bam_fname +:+ ".bai") ->
     files w2 !! bam_fname = files w !! bam_fname ->
     fst (bai_candidate bam_fname w2) = Ok (bam_fname +:+ ".bai") /\
     fst (is_newer_than (bam_fname +:+ ".bai") bam_fname w2)
     = fst (is_newer_than (bam_fname +:+ ".bai") bam_fname w)) /\
  (forall mi mb : Z,
     mtime w (bam_fname +:+ ".bai") = Some mi -> mtime w bam_fname = Some mb ->
     mi < mb ->
     ensure_bam_index pysam_index bam_fname w = regenerate pysam_index bam_fname w) /\
  (forall (p : string) (w' : World),
     ensure_bam_index pysam_index bam_fname w = (Ok p, w') ->
     p = bam_fname +:+ ".bai").
Proof.
  intros Hf. pose proof (bai_candidate_primary _ _ Hf) as Hc.
  split; [|split].
  - intros w2 Hbai Hbam.
    assert (Hf2 : is_file w2 (bam_fname +:+ ".bai")).
    { destruct Hf as (st & Hst & Hreg). exists st. now rewrite Hbai. }
    rewrite (bai_candidate_primary _ _ Hf2). split; [reflexivity|].
    unfold is_newer_than, bind.
    rewrite (isfile_true _ _ Hf), (isfile_true _ _ Hf2). cbn.
    unfold stat. rewrite Hbai.
    destruct Hf as (st & -> & _). rewrite Hbam.
    now destruct (files w !! bam_fname).
  - intros mi mb Hi Hb Hlt.
    apply (ensure_bam_index_stale _ _ _ _ Hc).
    rewrite (is_newer_than_present _ _ _ _ _ Hf Hi Hb).
    f_equal. f_equal. rewrite Z.geb_leb. apply Z.leb_gt. lia.
  - intros p w' H.
    destruct (is_newer_than_cases w (bam_fname +:+ ".bai") bam_fname) as [[[]|e] Hn].
    + rewrite (ensure_bam_index_fresh _ _ _ _ Hc Hn) in H. congruence.
    + rewrite (ensure_bam_index_stale _ _ _ _ Hc Hn) in H.
      now apply regenerate_ok in H.
    + rewrite (ensure_bam_index_raises _ _ _ _ _ Hc Hn) in H. discriminate.
Qed.

(** *** The theorems at work on small disks *)

Lemma ensure_bam_index_idempotent_witness :
  ensure_bam_index index_nothing "s.bam" fresh_disk = (Ok "s.bai", fresh_disk) /\
  (let w1 := snd (ensure_bam_index (index_at 20) "s.bam" bare_disk) in
   ensure_bam_index (index_at 20) "s.bam" w1 = (Ok "s.bam.bai", w1)).
Proof.
  split.
  - apply (fun Hc Hf Hi Hb Hle =>
             proj1 (proj1 (ensure_bam_index_idempotent index_nothing "s.bam"
                             fresh_disk) "s.bai" 10 10 Hc Hf Hi Hb Hle)).
    + vm_compute. reflexivity.
    + on_disk.
    + vm_compute. reflexivity.
    + vm_compute. reflexivity.
    + lia.
  - intros w1.
    apply (proj2 (ensure_bam_index_idempotent (index_at 20) "s.bam" bare_disk)
             "s.bam.bai" w1 20 10).
    + vm_compute. reflexivity.
    + vm_compute. reflexivity.
    + vm_compute. reflexivity.
    + lia.
Defined.


Lemma ensure_bam_index_asserts_witness :
  ensure_bam_index index_nothing "s.bam" bare_disk
  = (Raise (AssertionError "Failed to generate index s.bam.bai"),
     announced "s.bam" bare_disk).
Proof.
  apply (proj1 (ensure_bam_index_asserts index_nothing "s.bam" bare_disk)
           "s.bai" (announced "s.bam" bare_disk)).
  - vm_compute. reflexivity.
  - vm_compute. reflexivity.
  - reflexivity.
  - not_on_disk.
Defined.

Lemma ensure_bam_index_primary_only_witness :
  ensure_bam_index (index_at 30) "s.bam" stale_disk
  = regenerate (index_at 30) "s.bam" stale_disk /\
  regenerate (index_at 30) "s.bam" stale_disk
  = (Ok "s.bam.bai", write_file "s.bam.bai" 30 (announced "s.bam" stale_disk)).
Proof.
  split.
  - apply (proj1 (proj2 (ensure_bam_index_primary_only (index_at 30) "s.bam"
                           stale_disk ltac:(on_disk))) 5 10).
    + vm_compute. reflexivity.
    + vm_compute. reflexivity.
    + lia.
  - vm_compute. reflexivity.
Defined.

(** Against C2 as worded: an index written with a time stamp older than the
    BAM file's is returned by the call that built it and built again by the
    next call, on a BAM file that has not changed. *)
Lemma ensure_bam_index_rebuilds_old_index :
  let first := ensure_bam_index (index_at 5) "s.bam" bare_disk in
  let second := ensure_bam_index (index_at 5) "s.bam" (snd first) in
  fst first = Ok "s.bam.bai" /\
  files (snd first) !! "s.bam" = files bare_disk !! "s.bam" /\
  fst second = Ok "s.bam.bai" /\
  logged (snd first) = ["Indexing BAM file s.bam"] /\
  logged (snd second) = ["Indexing BAM file s.bam"; "Indexing BAM file s.bam"] /\
  snd second <> snd first.
Proof.
  vm_compute. repeat split. discriminate.
Qed.

(** The name without a last character gets the bare [i]. *)
Example bai_candidate_empty_name :
  bai_candidate "" empty_world = (Ok "i", empty_world).
Proof. reflexivity. Qed.

(** By name, [readA], [readA], [readB] are sorted and [readB], [readA] are
    not. *)
Example ensure_bam_sorted_by_name :
  let sorted := [mkRead 0 7 "readA"; mkRead 0 3 "readA"; mkRead 0 1 "readB"] in
  let unsorted := [mkRead 0 1 "readB"; mkRead 0 2 "readA"] in
  fst (ensure_bam_sorted "s.bam" true default_span (reads_world "s.bam" sorted))
  = Ok true /\
  fst (ensure_bam_sorted "s.bam" true default_span (reads_world "s.bam" unsorted))
  = Ok false.
Proof. vm_compute. split; reflexivity. Qed.

(** A [span] that is negative or above [sys.maxsize] is refused by [islice],
    even on a file without records. *)
Example ensure_bam_sorted_refused_span :
  fst (ensure_bam_sorted "s.bam" false (-1) (reads_world "s.bam" []))
  = Raise (ValueError (BadStop (-1))) /\
  fst (ensure_bam_sorted "s.bam" false (Py.maxsize + 1) (reads_world "s.bam" []))
  = Raise (ValueError (BadStop (Py.maxsize + 1))).
Proof. split; reflexivity. Qed.

(** The builtins on a few strings. *)
Example split_fields :
  Py.split "  chr1	1000  42 0 " = ["chr1"; "1000"; "42"; "0"] /\
  Py.split "   " = [] /\ Py.split "" = [].
Proof. vm_compute. repeat split. Qed.

Example splitlines_ends :
  Py.splitlines (String "a" (String "013" (String "010" (String "010"
                  (String "b" (String "013" EmptyString))))))
  = ["a"; ""; "b"].
Proof. reflexivity. Qed.

Example int_literals :
  Py.int "007" = Some 7 /\ Py.int "-12" = Some (-12) /\ Py.int "+3" = Some 3 /\
  Py.int "" = None /\ Py.int "-" = None /\ Py.int "1e3" = None.
Proof. vm_compute. repeat split. Qed.

(** ** More on counting mapped reads *)

(** X1. A count that cannot be read stops the loop with the error of [int],
    naming the field. *)
Theorem bam_total_reads_bad_count (w : World) (bam_fname : string)
    (out : idxstats_output) (before after : list string) (line : string)
    (tot : Z) (a b c d : string) :
  idxstats w !! bam_fname = Some out ->
  stats_lines out = (before ++ line :: after)%list ->
  count_mapped 0 before = Ok tot ->
  Py.split line = [a; b; c; d] ->
  Py.int c = None ->
  bam_total_reads bam_fname w = (Raise (ValueError (InvalidLiteral c)), w).
Proof.
  intros Hout Hlines Hbefore Hsplit Hint.
  rewrite (bam_total_reads_unfold _ _ _ Hout), Hlines, count_mapped_app, Hbefore.
  cbn. now rewrite Hsplit, Hint.
Qed.

Lemma bam_total_reads_bad_count_witness :
  let out := StatsLines ["chr1 1000 42 0"; "chr2 500 n/a 1"; "chr3 nonsense"] in
  bam_total_reads "sample.bam" (stats_world "sample.bam" out)
  = (Raise (ValueError (InvalidLiteral "n/a")), stats_world "sample.bam" out).
Proof.
  intros out.
  apply (bam_total_reads_bad_count (stats_world "sample.bam" out) "sample.bam" out
           ["chr1 1000 42 0"] ["chr3 nonsense"] "chr2 500 n/a 1" 42
           "chr2" "500" "n/a" "1" eq_refl eq_refl);
    vm_compute; reflexivity.
Defined.

(** Starting the loop [k] higher ends it [k] higher. *)
Lemma count_mapped_shift lines :
  forall tot n k,
    count_mapped tot lines = Ok n -> count_mapped (tot + k) lines = Ok (n + k).
Proof.
  induction lines as [|line rest IH]; intros tot n k; cbn.
  - now intros [= <-].
  - destruct (Py.split line) as [|x1 [|x2 [|x3 [|x4 [|x5 l]]]]]; try discriminate.
    destruct (Py.int x3) as [m|]; [|discriminate].
    intros H. replace (tot + k + m) with (tot + m + k) by lia. now apply IH.
Qed.

(** A line the loop gets past adds its count, whatever the total so far and
    whatever follows. *)
Lemma count_mapped_step line rest tot n :
  count_mapped tot (line :: rest) = Ok n ->
  exists m,
    count_mapped (tot + m) rest = Ok n /\
    forall tot' rest', count_mapped tot' (line :: rest') = count_mapped (tot' + m) rest'.
Proof.
  cbn. destruct (Py.split line) as [|x1 [|x2 [|x3 [|x4 [|x5 l]]]]]; try discriminate.
  destruct (Py.int x3) as [m|]; [|discriminate].
  intros H. exists m. split; [exact H | reflexivity].
Qed.

(** A total that is returned does not depend on the order of the lines. *)
Lemma count_mapped_permutation lines lines' :
  lines ≡ₚ lines' ->
  forall tot n, count_mapped tot lines = Ok n -> count_mapped tot lines' = Ok n.
Proof.
  induction 1 as [|x l l' _ IH|x y l|l l' l'' _ IH1 _ IH2]; intros tot n H.
  - exact H.
  - apply count_mapped_step in H as (m & H & Hx). rewrite Hx. now apply IH.
  - apply count_mapped_step in H as (my & H & Hy).
    apply count_mapped_step in H as (mx & H & Hx).
    rewrite Hx, Hy. now replace (tot + mx + my) with (tot + my + mx) by lia.
  - now apply IH2, IH1.
Qed.

(** X2. The total of a BAM file does not depend on the order in which the index
    lists the references: statistics with the same lines in another order give
    the same total. *)
Theorem bam_total_reads_permutation (w : World) (f g : string)
    (out out' : idxstats_output) (n : Z) :
  idxstats w !! f = Some out -> idxstats w !! g = Some out' ->
  stats_lines out ≡ₚ stats_lines out' ->
  bam_total_reads f w = (Ok n, w) ->
  bam_total_reads g w = (Ok n, w).
Proof.
  intros Hf Hg Hperm.
  rewrite (bam_total_reads_unfold _ _ _ Hf), (bam_total_reads_unfold _ _ _ Hg).
  intros [= H]. now rewrite (count_mapped_permutation _ _ Hperm _ _ H).
Qed.

Lemma bam_total_reads_permutation_witness :
  let w := stats_world2 "a.bam" (StatsLines ["chr1 10 4 0"; "chr2 20 6 1"])
                        "b.bam" (StatsLines ["chr2 20 6 1"; "chr1 10 4 0"]) in
  bam_total_reads "b.bam" w = (Ok 10, w).
Proof.
  intros w.
  apply (bam_total_reads_permutation w "a.bam" "b.bam"
           (StatsLines ["chr1 10 4 0"; "chr2 20 6 1"])
           (StatsLines ["chr2 20 6 1"; "chr1 10 4 0"]) 10).
  - vm_compute. reflexivity.
  - vm_compute. reflexivity.
  - apply perm_swap.
  - vm_compute. reflexivity.
Defined.

(** X3. Statistics made of the lines of two others put together total the sum of
    the two totals. *)
Theorem bam_total_reads_app (w : World) (f g h : string)
    (out1 out2 out : idxstats_output) (n1 n2 : Z) :
  idxstats w !! f = Some out1 -> idxstats w !! g = Some out2 ->
  idxstats w !! h = Some out ->
  stats_lines out = (stats_lines out1 ++ stats_lines out2)%list ->
  bam_total_reads f w = (Ok n1, w) ->
  bam_total_reads g w = (Ok n2, w) ->
  bam_total_reads h w = (Ok (n1 + n2), w).
Proof.
  intros Hf Hg Hh Hout.
  rewrite (bam_total_reads_unfold _ _ _ Hf), (bam_total_reads_unfold _ _ _ Hg),
    (bam_total_reads_unfold _ _ _ Hh), Hout, count_mapped_app.
  intros [= ->] [= H2].
  apply (count_mapped_shift _ 0 n2 n1) in H2.
  rewrite Z.add_0_l in H2. rewrite H2. do 2 f_equal. lia.
Qed.

Lemma bam_total_reads_app_witness :
  let w := stats_worlds [("a.bam", StatsLines ["chr1 10 4 0"]);
                         ("b.bam", StatsText "chr2 20 6 1");
                         ("ab.bam", StatsLines ["chr1 10 4 0"; "chr2 20 6 1"])] in
  bam_total_reads "ab.bam" w = (Ok (4 + 6), w).
Proof.
  intros w.
  apply (bam_total_reads_app w "a.bam" "b.bam" "ab.bam"
           (StatsLines ["chr1 10 4 0"]) (StatsText "chr2 20 6 1")
           (StatsLines ["chr1 10 4 0"; "chr2 20 6 1"]) 4 6);
    vm_compute; reflexivity.
Defined.

(** *** The two forms of the statistics *)

(** A line free of line ends, followed by a line feed, is the first line. *)
Lemma splitlines_line line text :
  free_of_line_ends line = true ->
  Py.splitlines (line +:+ String "010"%char text) = line :: Py.splitlines text.
Proof.
  induction line as [|c line IH]; intros Hfree.
  - reflexivity.
  - cbn in Hfree. apply andb_prop in Hfree as [Hc Hfree].
    apply andb_prop in Hc as [Hlf Hcr].
    apply negb_true_iff in Hlf, Hcr.
    change (String c line +:+ String "010"%char text)
      with (String c (line +:+ String "010"%char text)).
    cbn [Py.splitlines]. rewrite Hlf, Hcr. now rewrite (IH Hfree).
Qed.

(** Cutting the joined lines gives the lines back. *)
Lemma splitlines_unlines lines :
  Forall (fun line => free_of_line_ends line = true) lines ->
  Py.splitlines (unlines lines) = lines.
Proof.
  induction 1 as [|line rest Hline _ IH]; [reflexivity|].
  cbn [unlines foldr]. rewrite (splitlines_line _ _ Hline). f_equal. exact IH.
Qed.

(** X4. Whether pysam hands the statistics over as a list of lines or as one
    string with a line feed after each line, the total is the same. *)
Theorem bam_total_reads_text_or_lines (w : World) (f g : string)
    (lines : list string) :
  idxstats w !! f = Some (StatsText (unlines lines)) ->
  idxstats w !! g = Some (StatsLines lines) ->
  Forall (fun line => free_of_line_ends line = true) lines ->
  bam_total_reads f w = (fst (bam_total_reads g w), w).
Proof.
  intros Hf Hg Hfree.
  rewrite (bam_total_reads_unfold _ _ _ Hf), (bam_total_reads_unfold _ _ _ Hg).
  cbn [fst stats_lines]. now rewrite (splitlines_unlines _ Hfree).
Qed.

Lemma bam_total_reads_text_or_lines_witness :
  let lines := ["chr1 10 4 0"; "chr2 20 6 1"] in
  let w := stats_worlds [("t.bam", StatsText (unlines lines));
                         ("l.bam", StatsLines lines)] in
  bam_total_reads "t.bam" w = (fst (bam_total_reads "l.bam" w), w).
Proof.
  intros lines w.
  apply (bam_total_reads_text_or_lines w "t.bam" "l.bam" lines).
  - vm_compute. reflexivity.
  - vm_compute. reflexivity.
  - repeat constructor.
Defined.

(** *** Whitespace around a line *)

Lemma split_blank s : blank s = true -> Py.split s = [].
Proof.
  induction s as [|c s IH]; [reflexivity|]. cbn [Py.split blank].
  intros H. apply andb_prop in H as [-> H]. now apply IH.
Qed.

Lemma split_blank_before before s :
  blank before = true -> Py.split (before +:+ s) = Py.split s.
Proof.
  induction before as [|c before IH]; [reflexivity|].
  change (String c before +:+ s) with (String c (before +:+ s)).
  cbn [Py.split blank].
  intros H. apply andb_prop in H as [-> H]. now apply IH.
Qed.

Lemma split_blank_after after s :
  blank after = true -> Py.split (s +:+ after) = Py.split s.
Proof.
  intros Hafter. induction s as [|c s IH].
  - cbn. now apply split_blank.
  - change (String c s +:+ after) with (String c (s +:+ after)).
    cbn [Py.split]. rewrite IH.
    destruct (Py.isspace c); [reflexivity|].
    now destruct s as [|c' s].
Qed.

Lemma split_padding line padded :
  padding_of line padded -> Py.split padded = Py.split line.
Proof.
  intros (before & after & Hb & Ha & ->).
  now rewrite (split_blank_before _ _ Hb), (split_blank_after _ _ Ha).
Qed.

Lemma count_mapped_padding lines padded :
  Forall2 padding_of lines padded ->
  forall tot, count_mapped tot padded = count_mapped tot lines.
Proof.
  induction 1 as [|line p lines padded Hp _ IH]; intros tot; [reflexivity|].
  cbn. rewrite (split_padding _ _ Hp).
  destruct (Py.split line) as [|x1 [|x2 [|x3 [|x4 [|x5 l]]]]]; try reflexivity.
  destruct (Py.int x3); [apply IH | reflexivity].
Qed.

(** X5. Whitespace before and after a line (the line end pysam may leave on it,
    indentation, trailing blanks) changes neither the total nor the error. *)
Theorem bam_total_reads_padding (w : World) (f g : string)
    (lines padded : list string) :
  idxstats w !! f = Some (StatsLines lines) ->
  idxstats w !! g = Some (StatsLines padded) ->
  Forall2 padding_of lines padded ->
  bam_total_reads g w = bam_total_reads f w.
Proof.
  intros Hf Hg Hpad.
  rewrite (bam_total_reads_unfold _ _ _ Hf), (bam_total_reads_unfold _ _ _ Hg).
  cbn [stats_lines]. now rewrite (count_mapped_padding _ _ Hpad).
Qed.

Lemma bam_total_reads_padding_witness :
  let w := stats_worlds [("a.bam", StatsLines ["chr1 10 4 0"; "chr2 20 x 1"]);
                         ("b.bam", StatsLines ["  chr1 10 4 0
"; "chr2 20 x 1	"])] in
  bam_total_reads "b.bam" w = bam_total_reads "a.bam" w.
Proof.
  intros w.
  apply (bam_total_reads_padding w "a.bam" "b.bam"
           ["chr1 10 4 0"; "chr2 20 x 1"]
           ["  chr1 10 4 0
"; "chr2 20 x 1	"]).
  - vm_compute. reflexivity.
  - vm_compute. reflexivity.
  - constructor; [|constructor; [|constructor]].
    + exists "  ", "
". repeat split.
    + exists "", "	". repeat split.
Defined.

(** ** More on the freshness helper *)

(** X6. A reference that does not exist is only noticed when the target is a
    file: then [os.stat] raises; a target that is no file gives [False]
    before the reference is looked at. *)
Theorem is_newer_than_missing_reference (w : World) (target orig : string) :
  files w !! orig = None ->
  (is_file w target -> is_newer_than target orig w = (Raise (OSError orig), w)) /\
  (~ is_file w target -> is_newer_than target orig w = (Ok false, w)).
Proof.
  intros Ho. split.
  - intros Hf. now apply is_newer_than_no_reference.
  - apply is_newer_than_absent.
Qed.

Lemma is_newer_than_missing_reference_witness :
  is_newer_than "s.bam.bai" "s.bam" orphan_disk = (Raise (OSError "s.bam"), orphan_disk) /\
  is_newer_than "s.bai" "s.bam" orphan_disk = (Ok false, orphan_disk).
Proof.
  split.
  - apply (proj1 (is_newer_than_missing_reference orphan_disk "s.bam.bai" "s.bam"
                    eq_refl)).
    on_disk.
  - apply (proj2 (is_newer_than_missing_reference orphan_disk "s.bai" "s.bam"
                    eq_refl)).
    not_on_disk.
Defined.

(** X7. Of two regular files each is at least as new as itself, one of them is
    at least as new as the other, and each is at least as new as the other
    exactly when their time stamps are equal. *)
Theorem is_newer_than_order (w : World) (a b : string) (ma mb : Z) :
  is_file w a -> is_file w b -> mtime w a = Some ma -> mtime w b = Some mb ->
  is_newer_than a a w = (Ok true, w) /\
  (is_newer_than a b w = (Ok true, w) \/ is_newer_than b a w = (Ok true, w)) /\
  (is_newer_than a b w = (Ok true, w) /\ is_newer_than b a w = (Ok true, w)
   <-> ma = mb).
Proof.
  intros Ha Hb Hma Hmb.
  rewrite (is_newer_than_present _ _ _ _ _ Ha Hma Hma),
    (is_newer_than_present _ _ _ _ _ Ha Hma Hmb),
    (is_newer_than_present _ _ _ _ _ Hb Hmb Hma).
  rewrite !Z.geb_leb. split; [|split].
  - now rewrite Z.leb_refl.
  - destruct (Z.leb_spec mb ma); [now left|right].
    f_equal. f_equal. apply Z.leb_le. lia.
  - split.
    + intros [[= H1] [= H2]]. apply Z.leb_le in H1, H2. lia.
    + intros ->. now rewrite Z.leb_refl.
Qed.

Lemma is_newer_than_order_witness :
  is_newer_than "s.bam" "s.bam" stale_disk = (Ok true, stale_disk) /\
  (is_newer_than "s.bam" "s.bai" stale_disk = (Ok true, stale_disk) \/
   is_newer_than "s.bai" "s.bam" stale_disk = (Ok true, stale_disk)) /\
  (is_newer_than "s.bam" "s.bai" stale_disk = (Ok true, stale_disk) /\
   is_newer_than "s.bai" "s.bam" stale_disk = (Ok true, stale_disk)
   <-> 10 = 20).
Proof.
  apply (is_newer_than_order stale_disk "s.bam" "s.bai" 10 20);
    first [on_disk | vm_compute; reflexivity].
Defined.

(** ** More on probing the order *)

Lemma passes_take by_name (m : nat) :
  forall last reads, passes by_name last reads -> passes by_name last (take m reads).
Proof.
  induction m as [|m IH]; intros last [|r reads]; cbn; try tauto.
  intros [Hr H]. split; [exact Hr | now apply IH].
Qed.

(** X8. A file found sorted on its first [n] records is found sorted on any
    shorter sample; a sample of no record at all is always sorted. *)
Theorem ensure_bam_sorted_span_monotone (w : World) (bam_fname : string)
    (by_name : bool) (m n : Z) (bam : list AlignedRead) :
  samfile w !! bam_fname = Some bam ->
  0 <= m <= n ->
  ensure_bam_sorted bam_fname by_name 0 w = (Ok true, w) /\
  (ensure_bam_sorted bam_fname by_name n w = (Ok true, w) ->
   ensure_bam_sorted bam_fname by_name m w = (Ok true, w)).
Proof.
  intros Hb Hmn. split.
  { now rewrite (ensure_bam_sorted_unfold _ _ _ _ _ Hb)
      by (unfold Py.maxsize; lia). }
  intros Hn.
  pose proof (ensure_bam_sorted_answered _ _ _ _ _ _ _ Hb Hn) as Hrange.
  revert Hn. rewrite !(ensure_bam_sorted_unfold _ _ _ _ _ Hb) by lia.
  intros [= H]. f_equal. f_equal.
  apply scan_reads_passes. apply scan_reads_passes in H.
  apply (passes_take by_name (Z.to_nat m)) in H.
  rewrite take_take in H. now replace (Z.to_nat m `min` Z.to_nat n)%nat
    with (Z.to_nat m) in H by lia.
Qed.

Lemma ensure_bam_sorted_span_monotone_witness :
  let bam := [mkRead 0 10 "a"; mkRead 0 20 "b"; mkRead 0 5 "c"] in
  ensure_bam_sorted "s.bam" false 0 (reads_world "s.bam" bam)
  = (Ok true, reads_world "s.bam" bam) /\
  (ensure_bam_sorted "s.bam" false 2 (reads_world "s.bam" bam)
   = (Ok true, reads_world "s.bam" bam) ->
   ensure_bam_sorted "s.bam" false 1 (reads_world "s.bam" bam)
   = (Ok true, reads_world "s.bam" bam)).
Proof.
  intros bam.
  apply (ensure_bam_sorted_span_monotone (reads_world "s.bam" bam) "s.bam" false
           1 2 bam eq_refl).
  lia.
Defined.

(** *** Names *)

Lemma lex_le_refl s : lex_le s s.
Proof. induction s; now constructor. Qed.

Lemma lex_le_trans a b c : lex_le a b -> lex_le b c -> lex_le a c.
Proof.
  intros Hab. revert c.
  induction Hab as [s|c1 c2 s1 s2 Hlt|c0 s1 s2 _ IH]; intros c Hbc.
  - constructor.
  - inversion Hbc; subst; apply lex_le_less; [lia | assumption].
  - inversion Hbc; subst; [now apply lex_le_less | apply lex_le_same; now apply IH].
Qed.

(** Names in order pair by pair are in order throughout. *)
Lemma consecutive_names_sorted (reads : list AlignedRead) :
  consecutive_in_order true reads ->
  forall (d i : nat) ri rj,
    reads !! i = Some ri -> reads !! (i + d)%nat = Some rj ->
    lex_le (qname ri) (qname rj).
Proof.
  intros Hc. induction d as [|d IH]; intros i ri rj Hi Hj.
  - rewrite Nat.add_0_r in Hj. assert (ri = rj) as -> by congruence.
    apply lex_le_refl.
  - destruct (reads !! (i + d)%nat) as [rk|] eqn:Hk.
    + apply (lex_le_trans _ (qname rk)); [now apply (IH i)|].
      apply (Hc (i + d)%nat rk rj Hk). now rewrite <- Nat.add_succ_r.
    + apply lookup_ge_None in Hk. apply lookup_lt_Some in Hj. lia.
Qed.

(** X9. When the sample covers the whole file and the answer by name is [True],
    the query names are sorted throughout: no record has a name before that
    of any earlier record. *)
Theorem ensure_bam_sorted_names_sorted (w : World) (bam_fname : string)
    (span : Z) (bam : list AlignedRead) :
  samfile w !! bam_fname = Some bam ->
  Z.of_nat (length bam) <= span ->
  ensure_bam_sorted bam_fname true span w = (Ok true, w) ->
  forall (i j : nat) ri rj,
    (i <= j)%nat -> bam !! i = Some ri -> bam !! j = Some rj ->
    lex_le (qname ri) (qname rj).
Proof.
  intros Hb Hspan Hn.
  pose proof (ensure_bam_sorted_answered _ _ _ _ _ _ _ Hb Hn) as Hrange.
  revert Hn. rewrite (ensure_bam_sorted_unfold _ _ _ _ _ Hb) by lia.
  intros [= H] i j ri rj Hij Hi Hj.
  apply scan_reads_passes, passes_none in H.
  rewrite take_ge in H by lia.
  apply (consecutive_names_sorted bam H (j - i) i); [assumption|].
  now replace (i + (j - i))%nat with j by lia.
Qed.

Lemma ensure_bam_sorted_names_sorted_witness :
  lex_le "readA" "readC".
Proof.
  pose (bam := [mkRead 3 9 "readA"; mkRead 0 1 "readB"; mkRead 2 5 "readC"]).
  apply (ensure_bam_sorted_names_sorted (reads_world "s.bam" bam) "s.bam" 50 bam
           eq_refl ltac:(cbn; lia) ltac:(vm_compute; reflexivity)
           0%nat 2%nat (mkRead 3 9 "readA") (mkRead 2 5 "readC")
           ltac:(lia) eq_refl eq_refl).
Defined.

(** *** What each mode reads *)

Lemma out_of_order_locus read read' last last' :
  locus read = locus read' -> locus <$> last = locus <$> last' ->
  out_of_order false read last = out_of_order false read' last'.
Proof.
  unfold locus. intros [= Ht Hp] Hlast. unfold out_of_order.
  destruct last as [p|], last' as [p'|]; try discriminate; [|reflexivity].
  injection Hlast as Ht' Hp'. now rewrite Ht, Hp, Ht', Hp'.
Qed.

Lemma out_of_order_qname read read' last last' :
  qname read = qname read' -> qname <$> last = qname <$> last' ->
  out_of_order true read last = out_of_order true read' last'.
Proof.
  intros Hq Hlast. unfold out_of_order.
  destruct last as [p|], last' as [p'|]; try discriminate; [|reflexivity].
  injection Hlast as Hq'. now rewrite Hq, Hq'.
Qed.

Lemma scan_reads_locus (n : nat) :
  forall last last' bam bam',
    locus <$> last = locus <$> last' -> locus <$> bam = locus <$> bam' ->
    fst (scan_reads false n last bam) = fst (scan_reads false n last' bam').
Proof.
  induction n as [|n IH]; intros last last' [|r bam] [|r' bam'] Hlast Hbam;
    try discriminate; try reflexivity.
  change (locus r :: (locus <$> bam) = locus r' :: (locus <$> bam')) in Hbam.
  assert (Hr : locus r = locus r') by congruence.
  assert (Hrest : locus <$> bam = locus <$> bam') by congruence.
  cbn [scan_reads].
  rewrite (out_of_order_locus r r' last last' Hr Hlast).
  destruct (out_of_order false r' last'); [reflexivity|].
  apply IH; [|assumption].
  change (Some (locus r) = Some (locus r')). now rewrite Hr.
Qed.

Lemma scan_reads_qname (n : nat) :
  forall last last' bam bam',
    qname <$> last = qname <$> last' -> qname <$> bam = qname <$> bam' ->
    fst (scan_reads true n last bam) = fst (scan_reads true n last' bam').
Proof.
  induction n as [|n IH]; intros last last' [|r bam] [|r' bam'] Hlast Hbam;
    try discriminate; try reflexivity.
  change (qname r :: (qname <$> bam) = qname r' :: (qname <$> bam')) in Hbam.
  assert (Hr : qname r = qname r') by congruence.
  assert (Hrest : qname <$> bam = qname <$> bam') by congruence.
  cbn [scan_reads].
  rewrite (out_of_order_qname r r' last last' Hr Hlast).
  destruct (out_of_order true r' last'); [reflexivity|].
  apply IH; [|assumption].
  change (Some (qname r) = Some (qname r')). now rewrite Hr.
Qed.

(** X10. By position the answer depends on the references and positions only, and
    by name on the query names only: two files that agree on them get the
    same answer, or the same error, whatever else their records hold. *)
Theorem ensure_bam_sorted_reads_only (w : World) (f g : string) (span : Z)
    (bam bam' : list AlignedRead) :
  samfile w !! f = Some bam -> samfile w !! g = Some bam' ->
  (locus <$> bam = locus <$> bam' ->
   ensure_bam_sorted f false span w = ensure_bam_sorted g false span w) /\
  (qname <$> bam = qname <$> bam' ->
   ensure_bam_sorted f true span w = ensure_bam_sorted g true span w).
Proof.
  intros Hf Hg. unfold ensure_bam_sorted, bind, pysam_Samfile. rewrite Hf, Hg.
  destruct ((span <? 0)%Z || (Py.maxsize <? span)%Z); [split; reflexivity|].
  unfold ret. split; intros H.
  - now rewrite (scan_reads_locus _ None None bam bam' eq_refl H).
  - now rewrite (scan_reads_qname _ None None bam bam' eq_refl H).
Qed.

Lemma ensure_bam_sorted_reads_only_witness :
  let w := reads_worlds [("a.bam", [mkRead 0 10 "x"; mkRead 0 5 "y"]);
                         ("b.bam", [mkRead 0 10 "q"; mkRead 0 5 "p"]);
                         ("c.bam", [mkRead 1 7 "x"; mkRead 0 9 "y"])] in
  ensure_bam_sorted "a.bam" false 50 w = ensure_bam_sorted "b.bam" false 50 w /\
  ensure_bam_sorted "a.bam" true 50 w = ensure_bam_sorted "c.bam" true 50 w.
Proof.
  intros w. split.
  - apply (proj1 (ensure_bam_sorted_reads_only w "a.bam" "b.bam" 50
                    [mkRead 0 10 "x"; mkRead 0 5 "y"]
                    [mkRead 0 10 "q"; mkRead 0 5 "p"]
                    ltac:(vm_compute; reflexivity) ltac:(vm_compute; reflexivity))).
    reflexivity.
  - apply (proj2 (ensure_bam_sorted_reads_only w "a.bam" "c.bam" 50
                    [mkRead 0 10 "x"; mkRead 0 5 "y"]
                    [mkRead 1 7 "x"; mkRead 0 9 "y"]
                    ltac:(vm_compute; reflexivity) ltac:(vm_compute; reflexivity))).
    reflexivity.
Defined.

(** ** More on keeping the index *)

Lemma append_not_self s suffix : s +:+ suffix = s -> suffix = EmptyString.
Proof.
  induction s as [|c s IH]; [trivial|].
  change (String c s +:+ suffix) with (String c (s +:+ suffix)).
  intros [= H]. now apply IH.
Qed.

Lemma bai_not_bam bam_fname : bam_fname +:+ ".bai" <> bam_fname.
Proof. intros H. apply append_not_self in H. discriminate. Qed.

(** A candidate that is a file no older than the BAM file is returned as it
    is. *)
Lemma ensure_bam_index_fast pysam_index w bam_fname c mi mb :
  bai_candidate bam_fname w = (Ok c, w) ->
  is_file w c -> mtime w c = Some mi -> mtime w bam_fname = Some mb ->
  mb <= mi ->
  ensure_bam_index pysam_index bam_fname w = (Ok c, w).
Proof.
  intros Hc Hf Hi Hb Hle.
  apply ensure_bam_index_fresh; [assumption|].
  rewrite (is_newer_than_present _ _ _ _ _ Hf Hi Hb).
  f_equal. f_equal. rewrite Z.geb_leb. now apply Z.leb_le.
Qed.

(** X11. What the indexer raises leaves [ensure_bam_index] as it is, in the world
    the indexer left: the presence of the index is not even looked at. *)
Theorem ensure_bam_index_indexer_raises (pysam_index : string -> M unit)
    (bam_fname : string) (w w' : World) (c : string) (e : exn) :
  bai_candidate bam_fname w = (Ok c, w) ->
  is_newer_than c bam_fname w = (Ok false, w) ->
  pysam_index bam_fname (announced bam_fname w) = (Raise e, w') ->
  ensure_bam_index pysam_index bam_fname w = (Raise e, w').
Proof.
  intros Hc Hn Hidx.
  rewrite (ensure_bam_index_stale _ _ _ _ Hc Hn), regenerate_unfold.
  now rewrite Hidx.
Qed.

Lemma ensure_bam_index_indexer_raises_witness :
  ensure_bam_index index_fails "s.bam" stale_disk
  = (Raise (PysamError "s.bam"), announced "s.bam" stale_disk).
Proof.
  apply (ensure_bam_index_indexer_raises index_fails "s.bam" stale_disk
           (announced "s.bam" stale_disk) "s.bam.bai" (PysamError "s.bam"));
    vm_compute; reflexivity.
Defined.

(** X12. An index on disk for a BAM file that is not there: [os.stat] raises, and
    neither the log nor the indexer is reached. *)
Theorem ensure_bam_index_missing_bam (pysam_index : string -> M unit)
    (bam_fname : string) (w : World) (c : string) :
  bai_candidate bam_fname w = (Ok c, w) ->
  is_file w c ->
  files w !! bam_fname = None ->
  ensure_bam_index pysam_index bam_fname w = (Raise (OSError bam_fname), w).
Proof.
  intros Hc Hf Hb. apply (ensure_bam_index_raises _ _ _ c); [assumption|].
  now apply is_newer_than_no_reference.
Qed.

Lemma ensure_bam_index_missing_bam_witness :
  ensure_bam_index (index_at 30) "s.bam" orphan_disk
  = (Raise (OSError "s.bam"), orphan_disk).
Proof.
  apply (ensure_bam_index_missing_bam (index_at 30) "s.bam" orphan_disk "s.bam.bai").
  - vm_compute. reflexivity.
  - on_disk.
  - vm_compute. reflexivity.
Defined.

(** X13. With no index under either name the index is built, and the BAM file is
    not looked at before the indexer runs: it may even be missing. *)
Theorem ensure_bam_index_no_index (pysam_index : string -> M unit)
    (bam_fname : string) (w : World) :
  ~ is_file w (bam_fname +:+ ".bai") ->
  ~ is_file w (Py.drop_last bam_fname +:+ "i") ->
  ensure_bam_index pysam_index bam_fname w = regenerate pysam_index bam_fname w /\
  snd (ensure_bam_index pysam_index bam_fname w)
  = snd (pysam_index bam_fname (announced bam_fname w)).
Proof.
  intros Hprimary Hfallback.
  assert (E : ensure_bam_index pysam_index bam_fname w
              = regenerate pysam_index bam_fname w).
  { apply (ensure_bam_index_stale _ _ _ _ (bai_candidate_fallback _ _ Hprimary)).
    now apply is_newer_than_absent. }
  split; [exact E|]. rewrite E, regenerate_unfold.
  destruct (pysam_index bam_fname _) as [[[]|e] w']; [|reflexivity].
  destruct (files w' !! (bam_fname +:+ ".bai")) as [st|]; [|reflexivity].
  now destruct (st_isreg st).
Qed.

Lemma ensure_bam_index_no_index_witness :
  ensure_bam_index index_like_bam "s.bam" empty_world
  = regenerate index_like_bam "s.bam" empty_world /\
  snd (ensure_bam_index index_like_bam "s.bam" empty_world)
  = snd (index_like_bam "s.bam" (announced "s.bam" empty_world)).
Proof.
  apply (ensure_bam_index_no_index index_like_bam "s.bam" empty_world);
    not_on_disk.
Defined.

(** X14. With an indexer that leaves a fresh [<bam_fname>.bai] behind,
    [ensure_bam_index] succeeds on every BAM file that exists, and a second
    call returns the same path and leaves the world as the first one left
    it. *)
Theorem ensure_bam_index_twice (pysam_index : string -> M unit)
    (bam_fname : string) (w : World) (mb : Z) :
  builds_fresh_index pysam_index bam_fname ->
  mtime w bam_fname = Some mb ->
  exists (p : string) (w1 : World),
    ensure_bam_index pysam_index bam_fname w = (Ok p, w1) /\
    ensure_bam_index pysam_index bam_fname w1 = (Ok p, w1).
Proof.
  intros Hidx Hb.
  destruct (bai_candidate_total w bam_fname) as [c Hc].
  destruct (is_newer_than_cases w c bam_fname) as [[[]|e] Hn].
  - exists c, w. now rewrite (ensure_bam_index_fresh _ _ _ _ Hc Hn).
  - destruct (Hidx (announced bam_fname w) mb Hb)
      as (w1 & mi & mb' & Hrun & Hf & Hi & Hb' & Hle).
    exists (bam_fname +:+ ".bai"), w1.
    rewrite (ensure_bam_index_stale _ _ _ _ Hc Hn), regenerate_unfold, Hrun.
    pose proof Hf as (st & -> & ->). split; [reflexivity|].
    apply (ensure_bam_index_fast _ _ _ _ mi mb'); try assumption.
    now apply bai_candidate_primary.
  - exfalso.
    destruct (isfile_cases w c) as [[Hf _]|[Hno _]].
    + pose proof Hf as (st & Hst & _).
      assert (Hi : mtime w c = Some (st_mtime st))
        by (unfold mtime; now rewrite Hst).
      rewrite (is_newer_than_present _ _ _ _ _ Hf Hi Hb) in Hn. discriminate.
    + rewrite (is_newer_than_absent _ _ _ Hno) in Hn. discriminate.
Qed.

Lemma index_like_bam_fresh bam_fname : builds_fresh_index index_like_bam bam_fname.
Proof.
  intros w mb Hb. unfold mtime in Hb. unfold index_like_bam.
  destruct (files w !! bam_fname) as [st|] eqn:Hst; [|discriminate].
  injection Hb as <-.
  exists (write_file (bam_fname +:+ ".bai") (st_mtime st) w), (st_mtime st), (st_mtime st).
  split; [reflexivity|]. unfold is_file, mtime, write_file. cbn [files].
  rewrite lookup_insert_eq, lookup_insert_ne by apply bai_not_bam.
  rewrite Hst. repeat split; [|lia].
  eexists. split; reflexivity.
Qed.

Lemma ensure_bam_index_twice_witness :
  exists (p : string) (w1 : World),
    ensure_bam_index index_like_bam "s.bam" stale_fallback_disk = (Ok p, w1) /\
    ensure_bam_index index_like_bam "s.bam" w1 = (Ok p, w1).
Proof.
  apply (ensure_bam_index_twice index_like_bam "s.bam" stale_fallback_disk 10
           (index_like_bam_fresh "s.bam")).
  vm_compute. reflexivity.
Defined.

Lemma replace_last_snoc stem c c' :
  replace_last (stem +:+ String c EmptyString) c' = stem +:+ String c' EmptyString.
Proof.
  induction stem as [|a stem IH]; [reflexivity|].
  change (String a stem +:+ String c EmptyString)
    with (String a (stem +:+ String c EmptyString)).
  change (String a stem +:+ String c' EmptyString)
    with (String a (stem +:+ String c' EmptyString)).
  rewrite <- IH. cbn [replace_last].
  destruct stem; reflexivity.
Qed.

(** X15. A name that ends in [i] is its own second candidate: when
    [<bam_fname>.bai] is absent, [ensure_bam_index] takes the file itself for
    its index and returns its name without building anything. *)
Theorem ensure_bam_index_name_in_i (pysam_index : string -> M unit)
    (stem : string) (w : World) :
  ~ is_file w ((stem +:+ "i") +:+ ".bai") ->
  is_file w (stem +:+ "i") ->
  ensure_bam_index pysam_index (stem +:+ "i") w = (Ok (stem +:+ "i"), w).
Proof.
  intros Hprimary Hf.
  pose proof Hf as (st & Hst & _).
  assert (Hm : mtime w (stem +:+ "i") = Some (st_mtime st))
    by (unfold mtime; now rewrite Hst).
  apply (ensure_bam_index_fast _ _ _ _ (st_mtime st) (st_mtime st));
    try assumption; [|lia].
  rewrite (bai_candidate_fallback _ _ Hprimary), drop_last_replace.
  - now rewrite replace_last_snoc.
  - now destruct stem.
Qed.

Lemma ensure_bam_index_name_in_i_witness :
  ensure_bam_index index_fails ("reads." +:+ "i") odd_name_disk
  = (Ok ("reads." +:+ "i"), odd_name_disk).
Proof.
  apply (ensure_bam_index_name_in_i index_fails "reads." odd_name_disk).
  - not_on_disk.
  - on_disk.
Defined.

(** X16. [ensure_bam_index] returns no other path than the two names, and the
    second one only from a world where [<bam_fname>.bai] is absent, which it
    then leaves untouched. *)
Theorem ensure_bam_index_returns (pysam_index : string -> M unit)
    (bam_fname : string) (w w' : World) (p : string) :
  ensure_bam_index pysam_index bam_fname w = (Ok p, w') ->
  p = bam_fname +:+ ".bai" \/
  (p = Py.drop_last bam_fname +:+ "i" /\ w' = w /\
   ~ is_file w (bam_fname +:+ ".bai") /\ is_file w p).
Proof.
  intros H.
  destruct (isfile_cases w (bam_fname +:+ ".bai")) as [[Hf _]|[Hno _]].
  - pose proof (bai_candidate_primary _ _ Hf) as Hc.
    destruct (is_newer_than_cases w (bam_fname +:+ ".bai") bam_fname) as [[[]|e] Hn].
    + rewrite (ensure_bam_index_fresh _ _ _ _ Hc Hn) in H. left. congruence.
    + rewrite (ensure_bam_index_stale _ _ _ _ Hc Hn) in H.
      apply regenerate_ok in H. left. tauto.
    + rewrite (ensure_bam_index_raises _ _ _ _ _ Hc Hn) in H. discriminate.
  - pose proof (bai_candidate_fallback _ _ Hno) as Hc.
    destruct (is_newer_than_cases w (Py.drop_last bam_fname +:+ "i") bam_fname)
      as [[[]|e] Hn].
    + rewrite (ensure_bam_index_fresh _ _ _ _ Hc Hn) in H.
      injection H as <- <-. right. repeat split; try assumption.
      exact (is_newer_than_true_file _ _ _ _ Hn).
    + rewrite (ensure_bam_index_stale _ _ _ _ Hc Hn) in H.
      apply regenerate_ok in H. left. tauto.
    + rewrite (ensure_bam_index_raises _ _ _ _ _ Hc Hn) in H. discriminate.
Qed.

Lemma ensure_bam_index_returns_witness :
  "s.bai" = "s.bam" +:+ ".bai" \/
  ("s.bai" = Py.drop_last "s.bam" +:+ "i" /\ fresh_disk = fresh_disk /\
   ~ is_file fresh_disk ("s.bam" +:+ ".bai") /\ is_file fresh_disk "s.bai").
Proof.
  apply (ensure_bam_index_returns index_fails "s.bam" fresh_disk fresh_disk "s.bai").
  vm_compute. reflexivity.
Defined.
